(** * jaxnets.models.feedforward: Linear, MLP, SCM and GatedNet

    A shallow embedding of [src/jaxnets/models/feedforward.py].

    The module is a thin layer over JAX and Equinox, and the embedding
    keeps the boundary where the source has it.

    - The host's scalar arithmetic (floating point in the program) is
      abstract behind the class [HostNum]; a theorem that needs a law
      of it lists that law as a hypothesis.
    - Arrays are modelled up to rank one, a 0-d scalar or a 1-d vector,
      and a weight as the list of its rows.  Binary operators follow
      NumPy broadcasting, and a host operation that raises on a shape
      mismatch returns [None].  Reductions add from the left, starting
      at zero.
    - Keys, [jrandom.split], the default draw of [enn.Linear] and the
      host's validation of feature counts are abstract behind
      [HostInit]; initializers are functions of the weight, the key and
      their keyword arguments.  [HostDraws] has the same operations as
      relations, for what does not depend on the key settling them.
    - A parameter is a raw array or a [StopGradient] holding one, and
      host operators read it through [__jax_array__]. *)

From Stdlib Require Import ZArith QArith List Bool Lia.
Import ListNotations.
Open Scope Z_scope.

Set Implicit Arguments.

(** ** Host arithmetic *)

(** The element type of the host's arrays with the primitive operations
    the module reaches: constants, the four operations, the conversion
    of a Python [int] operand, and [jax.lax.stop_gradient] on one
    element. *)
Class HostNum (R : Type) : Type := {
  rzero : R;
  rone : R;
  radd : R -> R -> R;
  rsub : R -> R -> R;
  rmul : R -> R -> R;
  rdiv : R -> R -> R;
  rint : Z -> R;
  lax_stop_gradient : R -> R
}.

(** What the host's layer constructor rests on: [jrandom.split key 2],
    the entry at a row-major index of the default draw that
    [enn.Linear.__init__] makes for a layer of the given [in_features],
    and the host's own validation of the two feature counts, which the
    module leaves to it. *)
Class HostInit (Key R : Type) : Type := {
  split : Key -> Key * Key;
  default_init : Key -> Z -> nat -> R;
  accepts_features : Z -> Z -> bool
}.

(** ** Errors *)

Definition bind {A B : Type} (m : option A) (f : A -> option B) : option B :=
  match m with
  | Some a => f a
  | None => None
  end.

Notation "x <- m ;; k" := (bind m (fun x => k))
  (at level 61, m at next level, right associativity).

(** ** Arrays *)

Inductive Array (R : Type) : Type :=
| Scalar (r : R)
| Vector (v : list R).

Arguments Scalar {R} r.
Arguments Vector {R} v.

Definition Matrix (R : Type) : Type := list (list R).

Definition shape {R : Type} (a : Array R) : list nat :=
  match a with
  | Scalar _ => []
  | Vector v => [length v]
  end.

Definition elements {R : Type} (a : Array R) : list R :=
  match a with
  | Scalar r => [r]
  | Vector v => v
  end.

Definition amap {R S : Type} (f : R -> S) (a : Array R) : Array S :=
  match a with
  | Scalar r => Scalar (f r)
  | Vector v => Vector (map f v)
  end.

Fixpoint zip_with {R : Type} (f : R -> R -> R) (u v : list R) : list R :=
  match u, v with
  | x :: u', y :: v' => f x y :: zip_with f u' v'
  | _, _ => []
  end.

(** A binary array operator under NumPy broadcasting, for ranks 0 and 1:
    equal lengths combine elementwise, a scalar or a length-one vector
    is stretched, any other pair of lengths raises. *)
Definition broadcast {R : Type} (f : R -> R -> R) (a b : Array R)
  : option (Array R) :=
  match a, b with
  | Scalar x, Scalar y => Some (Scalar (f x y))
  | Scalar x, Vector v => Some (Vector (map (f x) v))
  | Vector u, Scalar y => Some (Vector (map (fun x => f x y) u))
  | Vector u, Vector v =>
      if (length u =? length v)%nat then Some (Vector (zip_with f u v))
      else match u, v with
           | [x], _ => Some (Vector (map (f x) v))
           | _, [y] => Some (Vector (map (fun x => f x y) u))
           | _, _ => None
           end
  end.

Section Arith.
Context {R : Type} {HN : HostNum R}.

Definition asum (l : list R) : R := fold_left radd l rzero.

(** [jnp.mean]: the sum of all elements over their number. *)
Definition jnp_mean (a : Array R) : R :=
  rdiv (asum (elements a)) (rint (Z.of_nat (length (elements a)))).

(** [a / n] for an array [a] and a Python [int] [n]. *)
Definition div_int (a : Array R) (n : Z) : Array R :=
  amap (fun v => rdiv v (rint n)) a.

(** [a * b] and [a + b] on arrays. *)
Definition amul (a b : Array R) : option (Array R) := broadcast rmul a b.
Definition aadd (a b : Array R) : option (Array R) := broadcast radd a b.

Definition dot (row x : list R) : R := asum (zip_with rmul row x).

(** [W @ x] for a rank-two [W]: the operand must be a vector whose
    length is the row length of [W]. *)
Definition matmul (W : Matrix R) (x : Array R) : option (Array R) :=
  match x with
  | Scalar _ => None
  | Vector v =>
      if forallb (fun row => (length row =? length v)%nat) W
      then Some (Vector (map (fun row => dot row v) W))
      else None
  end.

(** [jnp.ones_like]. *)
Definition ones_like (v : list R) : list R := map (fun _ => rone) v.

(** [c * v] for a Python [float] [c] and a vector [v]. *)
Definition scale (c : R) (v : list R) : list R := map (rmul c) v.
End Arith.

(** ** StopGradient *)

(** A parameter is a raw array or a [StopGradient] module holding one. *)
Inductive Param (A : Type) : Type :=
| Raw (a : A)
| StopGradient (array : A).

Arguments Raw {A} a.
Arguments StopGradient {A} array.

Definition wrapped {A : Type} (p : Param A) : A :=
  match p with
  | Raw a => a
  | StopGradient a => a
  end.

Definition is_frozen {A : Type} (p : Param A) : bool :=
  match p with
  | Raw _ => false
  | StopGradient _ => true
  end.

Section Layers.
Context {R : Type} {HN : HostNum R}.

(** [StopGradient.__jax_array__]: what a host operator sees when
    handed the parameter. *)
Definition jax_array_vec (p : Param (list R)) : list R :=
  match p with
  | Raw a => a
  | StopGradient a => map lax_stop_gradient a
  end.

Definition jax_array_mat (p : Param (Matrix R)) : Matrix R :=
  match p with
  | Raw a => a
  | StopGradient a => map (map lax_stop_gradient) a
  end.

(** ** Linear *)

Record Linear : Type := mkLinear {
  in_features : Z;
  out_features : Z;
  use_bias : bool;
  weight : Param (Matrix R);
  bias : option (Param (list R))
}.

(** Modelled from the spec: [enn.Linear.__call__], which [Linear]
    inherits from Equinox (not under src/): [weight @ x], plus the
    bias when there is one. *)
Definition Linear_apply (l : Linear) (x : Array R) : option (Array R) :=
  y <- matmul (jax_array_mat (weight l)) x ;;
  match bias l with
  | None => Some y
  | Some b => aadd y (Vector (jax_array_vec b))
  end.

(** The layer with the same parameter values, all of them trainable. *)
Definition unfreeze (l : Linear) : Linear :=
  mkLinear (in_features l) (out_features l) (use_bias l)
    (Raw (wrapped (weight l)))
    (option_map (fun b => Raw (wrapped b)) (bias l)).

Definition set_weight (l : Linear) (w : Param (Matrix R)) : Linear :=
  mkLinear (in_features l) (out_features l) (use_bias l) w (bias l).

Definition set_bias (l : Linear) (b : option (Param (list R))) : Linear :=
  mkLinear (in_features l) (out_features l) (use_bias l) (weight l) b.

Section Construction.
Context {Key : Type} {HR : HostInit Key R} {InitKw : Type}.

(** An initializer: [init_fn(weight, key=key, **init_kwargs)]. *)
Definition Initializer : Type := Matrix R -> Key -> InitKw -> Matrix R.

(** The default draws of the host constructor, as arrays of shape
    [[out_features, in_features]] and [[out_features]]. *)
Definition default_weight (wkey : Key) (in_features out_features : Z)
  : Matrix R :=
  let n_in := Z.to_nat in_features in
  map (fun i => map (fun j => default_init wkey in_features
                                (i * n_in + j)%nat)
                    (seq 0 n_in))
      (seq 0 (Z.to_nat out_features)).

Definition default_bias (bkey : Key) (in_features out_features : Z)
  : list R :=
  map (default_init bkey in_features) (seq 0 (Z.to_nat out_features)).

(** Modelled from the spec: [enn.Linear.__init__] of Equinox (not under
    src/).  Feature counts the host's validation refuses raise;
    otherwise the key is split, a default weight of shape
    [[out_features, in_features]] is drawn and, with [use_bias], a
    default bias of shape [[out_features]]. *)
Definition enn_Linear_init (in_features out_features : Z)
    (use_bias : bool) (key : Key) : option Linear :=
  if accepts_features in_features out_features then
    let (wkey, bkey) := split key in
    Some (mkLinear in_features out_features use_bias
            (Raw (default_weight wkey in_features out_features))
            (if use_bias
             then Some (Raw (default_bias bkey in_features out_features))
             else None))
  else None.

(** [Linear.__init__]. *)
Definition Linear_init (in_features out_features : Z)
    (use_bias weight_trainable : bool) (bias_value : R)
    (bias_trainable : bool) (key : Key)
    (init_fn : Initializer) (init_kwargs : InitKw) : option Linear :=
  self <- enn_Linear_init in_features out_features use_bias key ;;
  let w := init_fn (wrapped (weight self)) key init_kwargs in
  let self := set_weight self (Raw w) in
  let self :=
    if weight_trainable then self
    else set_weight self (StopGradient (wrapped (weight self))) in
  if use_bias then
    b0 <- bias self ;;
    let b := scale bias_value (ones_like (jax_array_vec b0)) in
    let self := set_bias self (Some (Raw b)) in
    Some (if bias_trainable then self
          else set_bias self (Some (StopGradient b)))
  else Some self.

(** The keyword arguments the models forward to [Linear]
    ([**linear_kwargs]), with [Linear]'s defaults. *)
Record LinearKwargs : Type := mkLinearKwargs {
  kw_use_bias : bool;
  kw_weight_trainable : bool;
  kw_bias_value : R;
  kw_bias_trainable : bool;
  kw_init : InitKw
}.

Definition default_linear_kwargs (init_kwargs : InitKw) : LinearKwargs :=
  mkLinearKwargs true true rzero false init_kwargs.

Definition Linear_init_kw (in_features out_features : Z) (key : Key)
    (init_fn : Initializer) (kw : LinearKwargs) : option Linear :=
  Linear_init in_features out_features (kw_use_bias kw)
    (kw_weight_trainable kw) (kw_bias_value kw) (kw_bias_trainable kw)
    key init_fn (kw_init kw).

(** Python's [a or b] for [a : int | None]: [None] and [0] are falsy. *)
Definition py_or (a : option Z) (b : Z) : Z :=
  match a with
  | None => b
  | Some 0 => b
  | Some v => v
  end.

(** ** MLP *)

Record MLP : Type := mkMLP {
  mlp_fc1 : Linear;
  mlp_act : Array R -> Array R;
  mlp_fc2 : Linear;
  num_hiddens : Z
}.

(** The defaults of [MLP.__init__]'s signature. *)
Definition MLP_default_hidden_features : option Z := None.
Definition MLP_default_out_features : option Z := Some 1.
Definition default_act : Array R -> Array R := fun x => x.

Definition MLP_init (in_features : Z) (hidden_features : option Z)
    (out_features : option Z) (act : Array R -> Array R) (key : Key)
    (init_fn : Initializer) (linear_kwargs : LinearKwargs) : option MLP :=
  let out_features := py_or out_features in_features in
  let hidden_features := py_or hidden_features in_features in
  let (key1, key2) := split key in
  fc1 <- Linear_init_kw in_features hidden_features key1 init_fn
           linear_kwargs ;;
  fc2 <- Linear_init_kw hidden_features out_features key2 init_fn
           linear_kwargs ;;
  Some (mkMLP fc1 act fc2 hidden_features).

Definition MLP_forward_pass (self : MLP) (x : Array R) (key : Key)
  : option (Array R * Array R) :=
  preact <- Linear_apply (mlp_fc1 self) x ;;
  let x := mlp_act self preact in
  x <- Linear_apply (mlp_fc2 self) x ;;
  let x := div_int x (num_hiddens self) in
  Some (x, preact).

Definition MLP_call (self : MLP) (x : Array R) (key : Key)
  : option (Array R) :=
  r <- MLP_forward_pass self x key ;; Some (fst r).

(** ** SCM *)

Record SCM : Type := mkSCM {
  scm_fc1 : Linear;
  scm_act : Array R -> Array R
}.

Definition SCM_init (in_features : Z) (hidden_features : option Z)
    (act : Array R -> Array R) (key : Key)
    (init_fn : Initializer) (linear_kwargs : LinearKwargs) : option SCM :=
  let hidden_features := py_or hidden_features in_features in
  fc1 <- Linear_init_kw in_features hidden_features key init_fn
           linear_kwargs ;;
  Some (mkSCM fc1 act).

Definition SCM_forward_pass (self : SCM) (x : Array R) (key : Key)
  : option (R * Array R) :=
  preact <- Linear_apply (scm_fc1 self) x ;;
  let x := scm_act self preact in
  let x := jnp_mean x in
  Some (x, preact).

Definition SCM_call (self : SCM) (x : Array R) (key : Key) : option R :=
  r <- SCM_forward_pass self x key ;; Some (fst r).

(** ** GatedNet *)

Record GatedNet : Type := mkGatedNet {
  gn_fc1 : Linear;
  gn_gate : Array R -> Array R
}.

(** [lambda x: 1.], the default gate: a bare scalar. *)
Definition default_gate : Array R -> Array R := fun _ => Scalar rone.

Definition GatedNet_init (in_features : Z) (hidden_features : option Z)
    (gate : Array R -> Array R) (key : Key)
    (init_fn : Initializer) (linear_kwargs : LinearKwargs)
  : option GatedNet :=
  let hidden_features := py_or hidden_features in_features in
  fc1 <- Linear_init_kw in_features hidden_features key init_fn
           linear_kwargs ;;
  Some (mkGatedNet fc1 gate).

Definition GatedNet_forward_pass (self : GatedNet) (x : Array R)
    (key : Key) : option (R * Array R * Array R * Array R) :=
  preacts <- Linear_apply (gn_fc1 self) x ;;
  let gates := gn_gate self x in
  postacts <- amul gates preacts ;;
  let x := jnp_mean postacts in
  Some (x, preacts, gates, postacts).

Definition GatedNet_call (self : GatedNet) (x : Array R) (key : Key)
  : option R :=
  r <- GatedNet_forward_pass self x key ;;
  Some (fst (fst (fst r))).
End Construction.
End Layers.

Arguments Linear R : clear implicits.
Arguments MLP R : clear implicits.
Arguments SCM R : clear implicits.
Arguments GatedNet R : clear implicits.
Arguments LinearKwargs R InitKw : clear implicits.
Arguments Initializer R Key InitKw : clear implicits.

(** ** Shape conditions

    What the callables handed to the constructors are expected to do
    with shapes: an initializer returns a weight of the shape it was
    given, an elementwise activation a vector of the length it was
    given. *)
Definition keeps_shape {R Key InitKw : Type}
    (init_fn : Initializer R Key InitKw) : Prop :=
  forall w k kw, map (@length R) (init_fn w k kw) = map (@length R) w.

Definition keeps_length {R : Type} (act : Array R -> Array R) (n : nat)
  : Prop :=
  forall u, length u = n ->
            exists u', act (Vector u) = Vector u' /\ length u' = n.

(** A layer all of whose parameters are wrapped in [StopGradient]. *)
Definition frozen_layer {R : Type} (l : Linear R) : Prop :=
  is_frozen (weight l) = true /\
  forall b, bias l = Some b -> is_frozen b = true.

(** ** Construction on a host that may draw at random

    [Linear.__init__] once more, over a host whose operations are
    relations between what they are handed and what they may return:
    whether a key settles the split, the default draw or the
    initializer's weight is left open, so that what the constructor
    adds of its own can be told from what the host provides. *)
Record HostDraws (Key R InitKw : Type) : Type := mkHostDraws {
  may_accept : Z -> Z -> Prop;
  may_split : Key -> Key * Key -> Prop;
  may_draw_weight : Key -> Z -> Z -> Matrix R -> Prop;
  may_draw_bias : Key -> Z -> Z -> list R -> Prop;
  may_initialize : Matrix R -> Key -> InitKw -> Matrix R -> Prop
}.

Section RelationalConstruction.
Context {R : Type} {HN : HostNum R} {Key InitKw : Type}.
Variable H : HostDraws Key R InitKw.

(** Modelled from the spec: [enn.Linear.__init__] of Equinox, every
    layer it may build from its arguments. *)
Definition enn_Linear_makes (in_features out_features : Z)
    (use_bias : bool) (key : Key) (self : Linear R) : Prop :=
  may_accept H in_features out_features /\
  exists wkey bkey w b,
    may_split H key (wkey, bkey) /\
    may_draw_weight H wkey in_features out_features w /\
    (if use_bias
     then exists b0, may_draw_bias H bkey in_features out_features b0 /\
                     b = Some (Raw b0)
     else b = None) /\
    self = mkLinear in_features out_features use_bias (Raw w) b.

(** [Linear.__init__], every layer it may build from its arguments. *)
Definition Linear_makes (in_features out_features : Z)
    (use_bias weight_trainable : bool) (bias_value : R)
    (bias_trainable : bool) (key : Key) (init_kwargs : InitKw)
    (l : Linear R) : Prop :=
  exists self w,
    enn_Linear_makes in_features out_features use_bias key self /\
    may_initialize H (wrapped (weight self)) key init_kwargs w /\
    let self := set_weight self (Raw w) in
    let self :=
      if weight_trainable then self
      else set_weight self (StopGradient (wrapped (weight self))) in
    if use_bias then
      exists b0, bias self = Some b0 /\
        let b := scale bias_value (ones_like (jax_array_vec b0)) in
        let self := set_bias self (Some (Raw b)) in
        l = (if bias_trainable then self
             else set_bias self (Some (StopGradient b)))
    else l = self.
End RelationalConstruction.

(** The host of [HostInit] and an initializer given as a function, as
    a host that may draw: each operation returns what the function
    gives and nothing else. *)
Definition functional_host {R Key InitKw : Type} {HR : HostInit Key R}
    (init_fn : Initializer R Key InitKw) : HostDraws Key R InitKw :=
  mkHostDraws
    (fun n_in n_out => accepts_features n_in n_out = true)
    (fun key halves => halves = split key)
    (fun wkey n_in n_out w => w = default_weight wkey n_in n_out)
    (fun bkey n_in n_out b => b = default_bias bkey n_in n_out)
    (fun w key kw w' => w' = init_fn w key kw).

(** ** Differentiation *)

(** Modelled from the spec: the host's differentiation pass, which is
    JAX's and not under src/.  It is taken in forward mode: a value
    travels with its tangent, the derivative along the direction being
    differentiated, and [None] is the symbolic zero tangent of a
    constant.  [jax.lax.stop_gradient] keeps the value and makes it a
    constant, which is the StopGradient contract of the spec. *)
Record Dual (R : Type) : Type := mkDual {
  primal : R;
  tangent : option R
}.

Arguments mkDual {R} primal tangent.
Arguments primal {R} d.
Arguments tangent {R} d.

Section Jvp.
Context {R : Type} {HN : HostNum R}.

Definition constant (r : R) : Dual R := mkDual r None.

Definition tan_add (s t : option R) : option R :=
  match s, t with
  | None, _ => t
  | _, None => s
  | Some a, Some b => Some (radd a b)
  end.

Definition tan_sub (s t : option R) : option R :=
  match s, t with
  | _, None => s
  | None, Some b => Some (rsub rzero b)
  | Some a, Some b => Some (rsub a b)
  end.

Definition dual_add (a b : Dual R) : Dual R :=
  mkDual (radd (primal a) (primal b)) (tan_add (tangent a) (tangent b)).

Definition dual_sub (a b : Dual R) : Dual R :=
  mkDual (rsub (primal a) (primal b)) (tan_sub (tangent a) (tangent b)).

Definition dual_mul (a b : Dual R) : Dual R :=
  mkDual (rmul (primal a) (primal b))
         (tan_add (option_map (fun t => rmul t (primal b)) (tangent a))
                  (option_map (rmul (primal a)) (tangent b))).

Definition dual_div (a b : Dual R) : Dual R :=
  mkDual (rdiv (primal a) (primal b))
         (tan_sub (option_map (fun t => rdiv t (primal b)) (tangent a))
                  (option_map (fun t => rdiv (rmul (primal a) t)
                                             (rmul (primal b) (primal b)))
                              (tangent b))).

Definition dual_stop_gradient (a : Dual R) : Dual R :=
  constant (lax_stop_gradient (primal a)).

(** A value is constant for the pass when its tangent is the symbolic
    zero: no derivative flows through it. *)
Definition is_constant (d : Dual R) : Prop := tangent d = None.

Definition constant_array (a : Array (Dual R)) : Prop :=
  Forall is_constant (elements a).

#[export] Instance Dual_HostNum : HostNum (Dual R) := {|
  rzero := constant rzero;
  rone := constant rone;
  radd := dual_add;
  rsub := dual_sub;
  rmul := dual_mul;
  rdiv := dual_div;
  rint := fun n => constant (rint n);
  lax_stop_gradient := dual_stop_gradient
|}.

End Jvp.

(** ** A concrete host

    Exact rational arithmetic and integer keys, to run the model on
    explicit inputs. *)
Module Exact.
#[export] Instance Q_HostNum : HostNum Q := {|
  rzero := 0%Q;
  rone := 1%Q;
  radd := Qplus;
  rsub := Qminus;
  rmul := Qmult;
  rdiv := Qdiv;
  rint := inject_Z;
  lax_stop_gradient := fun q => q
|}.

(** Modelled from the spec: a host that refuses feature counts that
    are not positive. *)
#[export] Instance Z_HostInit : HostInit Z Q := {|
  split := fun k => (2 * k + 1, 2 * k + 2);
  default_init := fun k n i => inject_Z (k + Z.of_nat i);
  accepts_features := fun n_in n_out => (0 <? n_in) && (0 <? n_out)
|}.

(** An initializer that keeps the shape and redraws every entry. *)
Definition redraw : Initializer Q Z unit :=
  fun w key _ => map (map (fun q => Qplus q (inject_Z key))) w.

Definition kwargs : LinearKwargs Q unit := default_linear_kwargs tt.

(** The same host with an initializer that does not go by the key
    alone: it may return the redrawn weight or the weight it was
    given. *)
Definition coin_host : HostDraws Z Q unit :=
  mkHostDraws
    (may_accept (functional_host redraw))
    (may_split (functional_host redraw))
    (may_draw_weight (functional_host redraw))
    (may_draw_bias (functional_host redraw))
    (fun w key kw w' => w' = redraw w key kw \/ w' = w).

Definition ones3 : Array Q := Vector [1%Q; 1%Q; 1%Q].

(** A first layer with three inputs and two hidden units. *)
Definition fc1_32 : Linear Q :=
  mkLinear 3 2 true
    (Raw [[1%Q; 2%Q; 3%Q]; [4%Q; 5%Q; 6%Q]])
    (Some (StopGradient [0%Q; 0%Q])).

Definition gated_32 : GatedNet Q := mkGatedNet fc1_32 default_gate.
Definition scm_32 : SCM Q := mkSCM fc1_32 default_act.

(** The same layer under differentiation, input and bias constant,
    and two seedings of its weight: every entry differentiated with
    tangent one, and none. *)
Definition seeded (q : Q) : Dual Q := mkDual q (Some 1%Q).

Definition W_seeded : Matrix (Dual Q) :=
  map (map seeded) [[1%Q; 2%Q; 3%Q]; [4%Q; 5%Q; 6%Q]].

Definition W_constant : Matrix (Dual Q) :=
  map (map constant) [[1%Q; 2%Q; 3%Q]; [4%Q; 5%Q; 6%Q]].

Definition dual_fc1 (w : Param (Matrix (Dual Q))) : Linear (Dual Q) :=
  mkLinear 3 2 true w (Some (StopGradient [constant 0%Q; constant 0%Q])).

Definition dual_ones3 : Array (Dual Q) := amap constant ones3.

(** The host under differentiation of every parameter it draws: each
    default entry carries the tangent one. *)
#[export] Instance Z_HostInit_dual : HostInit Z (Dual Q) := {|
  split := fun k => (2 * k + 1, 2 * k + 2);
  default_init := fun k n i => seeded (inject_Z (k + Z.of_nat i));
  accepts_features := fun n_in n_out => (0 <? n_in) && (0 <? n_out)
|}.

Definition redraw_dual : Initializer (Dual Q) Z unit :=
  fun w key _ => map (map (fun d => dual_add d (seeded (inject_Z key)))) w.

(** [weight_trainable=False] with the default frozen bias. *)
Definition frozen_kwargs : LinearKwargs (Dual Q) unit :=
  mkLinearKwargs true false (constant 0%Q) false tt.
End Exact.

(** * Properties *)

Lemma bind_Some {A B : Type} (m : option A) (f : A -> option B) (b : B) :
  bind m f = Some b <-> exists a, m = Some a /\ f a = Some b.
Proof.
  destruct m as [a|]; simpl; split.
  - intros E. exists a. split; [reflexivity | exact E].
  - intros [a' [Ea E]]. injection Ea as ->. exact E.
  - discriminate.
  - intros [a' [Ea _]]. discriminate.
Qed.

Section ConstructionFacts.
Context {R : Type} {HN : HostNum R}.
Context {Key : Type} {HR : HostInit Key R} {InitKw : Type}.

Implicit Types (init_fn : Initializer R Key InitKw) (key : Key).

(** What [Linear.__init__] builds, in closed form. *)
Lemma Linear_init_eq (n_in n_out : Z) (ub wt : bool) (bv : R) (bt : bool)
    key init_fn (kw : InitKw) :
  Linear_init n_in n_out ub wt bv bt key init_fn kw =
  if accepts_features n_in n_out then
    let w := init_fn (default_weight (fst (split key)) n_in n_out) key kw in
    let b := scale bv (ones_like (default_bias (snd (split key)) n_in n_out)) in
    Some (mkLinear n_in n_out ub
            (if wt then Raw w else StopGradient w)
            (if ub then Some (if bt then Raw b else StopGradient b)
             else None))
  else None.
Proof.
  unfold Linear_init, enn_Linear_init.
  destruct (accepts_features n_in n_out); [ | reflexivity].
  destruct (split key) as [wkey bkey]. cbn [bind fst snd].
  destruct ub, wt, bt; reflexivity.
Qed.

Lemma scale_ones_like (c : R) (v : list R) :
  (forall r, rmul r rone = r) ->
  scale c (ones_like v) = repeat c (length v).
Proof.
  intros Hone. unfold scale, ones_like.
  induction v as [|r v IH]; simpl; [reflexivity | ].
  rewrite Hone, IH. reflexivity.
Qed.

Lemma default_bias_length (bkey : Key) (n_in n_out : Z) :
  length (default_bias bkey n_in n_out) = Z.to_nat n_out.
Proof.
  unfold default_bias. rewrite length_map, length_seq. reflexivity.
Qed.

(** C5.  Every [Linear] built with [use_bias] has, whatever the weight
    initializer, its keyword arguments and the key, the bias
    [bias_value] repeated [out_features] times; the bias is a raw
    array when [bias_trainable] and is wrapped in [StopGradient]
    otherwise.  Such a layer is built whenever the host accepts the
    feature counts.  The host's product is taken to have [1.] as a
    right unit, as floating-point multiplication has. *)
Theorem Linear_init_bias (n_in n_out : Z) (wt : bool) (bv : R) (bt : bool)
    key init_fn (kw : InitKw)
    (Hone : forall r : R, rmul r rone = r) :
  (accepts_features n_in n_out = true ->
   exists l, Linear_init n_in n_out true wt bv bt key init_fn kw = Some l) /\
  (forall l,
      Linear_init n_in n_out true wt bv bt key init_fn kw = Some l ->
      out_features l = n_out /\
      bias l = Some (if bt then Raw (repeat bv (Z.to_nat n_out))
                     else StopGradient (repeat bv (Z.to_nat n_out)))).
Proof.
  rewrite Linear_init_eq. split.
  - intros ->. eexists. reflexivity.
  - intros l. destruct (accepts_features n_in n_out); [ | discriminate].
    cbv zeta. intros E. injection E as <-. cbn.
    split; [reflexivity | ].
    rewrite (scale_ones_like _ _ Hone), default_bias_length.
    destruct bt; reflexivity.
Qed.

Lemma Linear_init_unfreeze (n_in n_out : Z) (ub wt : bool) (bv : R)
    (bt : bool) key init_fn (kw : InitKw) (l : Linear R) :
  Linear_init n_in n_out ub wt bv bt key init_fn kw = Some l ->
  Linear_init n_in n_out ub true bv true key init_fn kw = Some (unfreeze l) /\
  is_frozen (weight l) = negb wt.
Proof.
  rewrite !Linear_init_eq.
  destruct (accepts_features n_in n_out); [ | discriminate].
  cbv zeta. intros E. injection E as <-. unfold unfreeze.
  destruct ub, wt, bt; split; reflexivity.
Qed.

(** ** Shapes *)

Lemma map_constant {A B : Type} (f : A -> B) (c : B) (l : list A) :
  (forall a, f a = c) -> map f l = repeat c (length l).
Proof.
  intros Hf. induction l as [|a l IH]; simpl; [reflexivity | ].
  rewrite Hf, IH. reflexivity.
Qed.

Lemma default_weight_shape (wkey : Key) (n_in n_out : Z) :
  map (@length R) (default_weight wkey n_in n_out)
  = repeat (Z.to_nat n_in) (Z.to_nat n_out).
Proof.
  unfold default_weight. cbv zeta. rewrite map_map.
  rewrite (@map_constant _ _ _ (Z.to_nat n_in)).
  - rewrite length_seq. reflexivity.
  - intros i. rewrite length_map, length_seq. reflexivity.
Qed.

Lemma jax_array_mat_shape (p : Param (Matrix R)) :
  map (@length R) (jax_array_mat p) = map (@length R) (wrapped p).
Proof.
  destruct p as [W|W]; simpl; [reflexivity | ].
  rewrite map_map. apply map_ext. intros row. apply length_map.
Qed.

Lemma matmul_shape (W : Matrix R) (v : list R) (n : nat) :
  map (@length R) W = repeat (length v) n ->
  matmul W (Vector v) = Some (Vector (map (fun row => dot row v) W)) /\
  length W = n.
Proof.
  intros E. split.
  - unfold matmul.
    assert (H : forallb (fun row => (length row =? length v)%nat) W = true).
    { revert n E. induction W as [|row W IH]; intros n E;
        [reflexivity | ].
      destruct n as [|n]; simpl in E; [discriminate | ].
      injection E as Er EW. simpl.
      rewrite Er, Nat.eqb_refl. exact (IH n EW). }
    rewrite H. reflexivity.
  - rewrite <- (length_map (@length R) W), E. apply repeat_length.
Qed.

Lemma zip_with_length (f : R -> R -> R) (u v : list R) :
  length u = length v -> length (zip_with f u v) = length u.
Proof.
  revert v. induction u as [|x u IH]; intros [|y v] E;
    simpl in *; try discriminate; [reflexivity | ].
  injection E as E. rewrite (IH v E). reflexivity.
Qed.

Lemma jax_array_vec_length (p : Param (list R)) :
  length (jax_array_vec p) = length (wrapped p).
Proof.
  destruct p as [b|b]; simpl; [reflexivity | apply length_map].
Qed.

(** X1.  A layer built by [Linear.__init__] with an initializer that
    keeps the shape of the weight maps every vector of length [in_features]
    to a vector of length [out_features]. *)
Theorem Linear_apply_shape (n_in n_out : Z) (ub wt : bool) (bv : R)
    (bt : bool) key init_fn (kw : InitKw) (l : Linear R) (v : list R)
    (Hshape : forall w k kw,
        map (@length R) (init_fn w k kw) = map (@length R) w)
    (Hl : Linear_init n_in n_out ub wt bv bt key init_fn kw = Some l)
    (Hv : length v = Z.to_nat n_in) :
  exists y,
    Linear_apply l (Vector v) = Some (Vector y) /\
    length y = Z.to_nat n_out.
Proof.
  rewrite Linear_init_eq in Hl.
  destruct (accepts_features n_in n_out); [ | discriminate].
  cbv zeta in Hl. injection Hl as <-.
  unfold Linear_apply. cbn [weight bias].
  set (w := init_fn _ key kw).
  set (W := jax_array_mat (if wt then Raw w else StopGradient w)).
  assert (HW : map (@length R) W = repeat (length v) (Z.to_nat n_out)).
  { unfold W. rewrite jax_array_mat_shape.
    replace (wrapped (if wt then Raw w else StopGradient w)) with w
      by (destruct wt; reflexivity).
    unfold w. rewrite Hshape, default_weight_shape, Hv. reflexivity. }
  destruct (@matmul_shape W v _ HW) as [-> HlenW]. cbn [bind].
  destruct ub.
  - unfold aadd, broadcast.
    set (b := jax_array_vec _).
    assert (Hb : length b = Z.to_nat n_out).
    { unfold b. rewrite jax_array_vec_length.
      replace (wrapped _) with
        (scale bv (ones_like (default_bias (snd (split key)) n_in n_out)))
        by (destruct bt; reflexivity).
      unfold scale, ones_like. rewrite !length_map.
      apply default_bias_length. }
    assert (Hy : length (map (fun row => dot row v) W) = length b).
    { rewrite length_map, HlenW, Hb. reflexivity. }
    rewrite (proj2 (Nat.eqb_eq _ _) Hy).
    eexists. split; [reflexivity | ].
    rewrite (@zip_with_length _ _ _ Hy), length_map. exact HlenW.
  - eexists. split; [reflexivity | ]. rewrite length_map. exact HlenW.
Qed.

(** The constructor on a host that may draw is the constructor of
    [Linear_init] when the host is a function of the key. *)
Lemma Linear_makes_functional (n_in n_out : Z) (ub wt : bool) (bv : R)
    (bt : bool) key init_fn (kw : InitKw) (l : Linear R) :
  Linear_makes (functional_host init_fn) n_in n_out ub wt bv bt key kw l <->
  Linear_init n_in n_out ub wt bv bt key init_fn kw = Some l.
Proof.
  rewrite Linear_init_eq. unfold Linear_makes, enn_Linear_makes.
  cbn [functional_host may_accept may_split may_draw_weight may_draw_bias
       may_initialize]. cbv zeta. split.
  - intros [self [w [[Ha [wkey [bkey [w0 [b [Hs [Hw [Hb ->]]]]]]]] [-> E]]]].
    rewrite Ha, <- Hs. cbn [fst snd weight wrapped] in *. subst w0.
    destruct ub.
    + destruct Hb as [b0 [-> ->]]. destruct E as [b1 [Eb ->]].
      assert (b1 = Raw (default_bias bkey n_in n_out)) as ->
        by (destruct wt; cbn in Eb; congruence).
      destruct wt, bt; reflexivity.
    + subst b l. destruct wt; reflexivity.
  - destruct (accepts_features n_in n_out) eqn:Ha; [ | discriminate].
    intros E. injection E as <-.
    exists (mkLinear n_in n_out ub
              (Raw (default_weight (fst (split key)) n_in n_out))
              (if ub
               then Some (Raw (default_bias (snd (split key)) n_in n_out))
               else None)).
    eexists. split; [ | split; [reflexivity | ]].
    + split; [reflexivity | ].
      exists (fst (split key)), (snd (split key)).
      eexists. eexists. split; [symmetry; apply surjective_pairing | ].
      split; [reflexivity | ]. split; [ | reflexivity].
      destruct ub; [ | reflexivity]. eexists. split; reflexivity.
    + cbn [weight wrapped]. destruct ub.
      * eexists. split; [destruct wt; reflexivity | ].
        destruct wt, bt; reflexivity.
      * destruct wt; reflexivity.
Qed.

(** C7.  On a host where the key settles the split, the default weight,
    the length of the default bias and the weight the initializer
    returns, two constructions from the same arguments and the same
    key build the same layer: the same weight and the same bias, the
    bias whatever values the host drew for it.  The constructor adds
    no other source of variation. *)
Theorem Linear_init_deterministic (H : HostDraws Key R InitKw)
    (n_in n_out : Z) (ub wt : bool) (bv : R) (bt : bool) key (kw : InitKw)
    (l1 l2 : Linear R)
    (Hsplit : forall k halves halves',
        may_split H k halves -> may_split H k halves' -> halves = halves')
    (Hweight : forall k a b w w',
        may_draw_weight H k a b w -> may_draw_weight H k a b w' -> w = w')
    (Hbias : forall k a b v v',
        may_draw_bias H k a b v -> may_draw_bias H k a b v' ->
        length v = length v')
    (Hinit : forall w k kwargs w1 w2,
        may_initialize H w k kwargs w1 -> may_initialize H w k kwargs w2 ->
        w1 = w2)
    (H1 : Linear_makes H n_in n_out ub wt bv bt key kw l1)
    (H2 : Linear_makes H n_in n_out ub wt bv bt key kw l2) :
  weight l1 = weight l2 /\ bias l1 = bias l2 /\ l1 = l2.
Proof.
  assert (E : l1 = l2); [ | subst; repeat split].
  destruct H1 as [s1 [w1 [[_ [wk1 [bk1 [d1 [b1 [S1 [W1 [B1 ->]]]]]]]] [I1 F1]]]].
  destruct H2 as [s2 [w2 [[_ [wk2 [bk2 [d2 [b2 [S2 [W2 [B2 ->]]]]]]]] [I2 F2]]]].
  pose proof (Hsplit _ _ _ S1 S2) as Ek. injection Ek as -> ->.
  pose proof (Hweight _ _ _ _ _ W1 W2) as ->.
  cbn [weight wrapped] in I1, I2.
  pose proof (Hinit _ _ _ _ _ I1 I2) as ->.
  cbv zeta in F1, F2. destruct ub.
  - destruct B1 as [v1 [V1 ->]], B2 as [v2 [V2 ->]].
    destruct F1 as [c1 [C1 ->]], F2 as [c2 [C2 ->]].
    assert (Eb : scale bv (ones_like (jax_array_vec c1))
                 = scale bv (ones_like (jax_array_vec c2))).
    { assert (c1 = Raw v1) as -> by (destruct wt; cbn in C1; congruence).
      assert (c2 = Raw v2) as -> by (destruct wt; cbn in C2; congruence).
      cbn [jax_array_vec]. unfold scale, ones_like. rewrite !map_map.
      rewrite (@map_constant _ _ _ (rmul bv rone) v1) by reflexivity.
      rewrite (@map_constant _ _ _ (rmul bv rone) v2) by reflexivity.
      rewrite (Hbias _ _ _ _ _ V1 V2). reflexivity. }
    rewrite Eb. destruct wt, bt; reflexivity.
  - subst b1 b2. rewrite F1, F2. reflexivity.
Qed.

(** ** Feature counts of the models *)

Lemma Linear_init_kw_features (n_in n_out : Z) key init_fn
    (kw : LinearKwargs R InitKw) (l : Linear R) :
  Linear_init_kw n_in n_out key init_fn kw = Some l ->
  in_features l = n_in /\ out_features l = n_out.
Proof.
  unfold Linear_init_kw. rewrite Linear_init_eq.
  destruct (accepts_features n_in n_out); [ | discriminate].
  cbv zeta. intros E. injection E as <-. split; reflexivity.
Qed.

Lemma Linear_init_kw_succeeds (n_in n_out : Z) key init_fn
    (kw : LinearKwargs R InitKw) :
  accepts_features n_in n_out = true ->
  exists l, Linear_init_kw n_in n_out key init_fn kw = Some l.
Proof.
  intros H. unfold Linear_init_kw. rewrite Linear_init_eq, H.
  eexists. reflexivity.
Qed.

Lemma py_or_nonzero (a : option Z) (b : Z) : b <> 0 -> py_or a b <> 0.
Proof.
  intros Hb. destruct a as [[|v|v]|]; simpl; try assumption; discriminate.
Qed.

Lemma MLP_init_features (n_in : Z) (hidden out : option Z)
    (act : Array R -> Array R) key init_fn (kw : LinearKwargs R InitKw)
    (m : MLP R) :
  MLP_init n_in hidden out act key init_fn kw = Some m ->
  in_features (mlp_fc1 m) = n_in /\
  out_features (mlp_fc1 m) = py_or hidden n_in /\
  in_features (mlp_fc2 m) = py_or hidden n_in /\
  out_features (mlp_fc2 m) = py_or out n_in /\
  num_hiddens m = py_or hidden n_in.
Proof.
  unfold MLP_init. cbv zeta. destruct (split key) as [key1 key2].
  intros E. apply bind_Some in E. destruct E as [fc1 [E1 E]].
  apply bind_Some in E. destruct E as [fc2 [E2 E]].
  injection E as <-. cbn.
  apply Linear_init_kw_features in E1, E2.
  destruct E1 as [-> ->], E2 as [-> ->]. repeat split.
Qed.

Lemma MLP_init_succeeds (n_in : Z) (hidden out : option Z)
    (act : Array R -> Array R) key init_fn (kw : LinearKwargs R InitKw) :
  accepts_features n_in (py_or hidden n_in) = true ->
  accepts_features (py_or hidden n_in) (py_or out n_in) = true ->
  exists m, MLP_init n_in hidden out act key init_fn kw = Some m.
Proof.
  intros H1 H2. unfold MLP_init. cbv zeta.
  destruct (split key) as [key1 key2].
  destruct (Linear_init_kw_succeeds _ _ key1 init_fn kw H1) as [fc1 ->].
  destruct (Linear_init_kw_succeeds _ _ key2 init_fn kw H2) as [fc2 ->].
  cbn [bind]. eexists. reflexivity.
Qed.

(** C6, as the code has it.  An [MLP] built from [in_features] alone
    gets [hidden_features = in_features] and [out_features = 1], the
    defaults of the signature; [out_features] falls back to
    [in_features] only when it is passed as [None].  Such a network is
    built whenever the host accepts the two pairs of feature counts. *)
Theorem MLP_init_defaults (n_in : Z) (act : Array R -> Array R) key
    init_fn (kw : LinearKwargs R InitKw) :
  (forall m,
      MLP_init n_in MLP_default_hidden_features MLP_default_out_features
               act key init_fn kw = Some m ->
      in_features (mlp_fc1 m) = n_in /\
      out_features (mlp_fc1 m) = n_in /\
      num_hiddens m = n_in /\
      in_features (mlp_fc2 m) = n_in /\
      out_features (mlp_fc2 m) = 1) /\
  (forall m,
      MLP_init n_in MLP_default_hidden_features None
               act key init_fn kw = Some m ->
      out_features (mlp_fc2 m) = n_in) /\
  (accepts_features n_in n_in = true ->
   accepts_features n_in 1 = true ->
   exists m,
     MLP_init n_in MLP_default_hidden_features MLP_default_out_features
              act key init_fn kw = Some m).
Proof.
  split; [ | split].
  - intros m E. apply MLP_init_features in E. simpl in E.
    intuition congruence.
  - intros m E. apply MLP_init_features in E. simpl in E.
    intuition congruence.
  - intros H1 H2. apply MLP_init_succeeds; assumption.
Qed.

(** C10.  In the three constructors a [hidden_features] of [0] (and in
    [MLP] an [out_features] of [0]) is treated exactly as [None]:
    [in_features] takes its place, so the feature counts handed to
    [Linear] are not zero unless [in_features] is.  The host refusing
    feature counts that are not positive, no layer with a zero feature
    count comes out of these constructors, whatever they are given. *)
Theorem zero_features_are_None (n_in : Z) (hidden out : option Z)
    (act gate : Array R -> Array R) key init_fn
    (kw : LinearKwargs R InitKw)
    (Hhost : forall a b, accepts_features a b = true -> 0 < a /\ 0 < b) :
  (MLP_init n_in (Some 0) out act key init_fn kw
     = MLP_init n_in None out act key init_fn kw /\
   MLP_init n_in hidden (Some 0) act key init_fn kw
     = MLP_init n_in hidden None act key init_fn kw /\
   SCM_init n_in (Some 0) act key init_fn kw
     = SCM_init n_in None act key init_fn kw /\
   GatedNet_init n_in (Some 0) gate key init_fn kw
     = GatedNet_init n_in None gate key init_fn kw) /\
  (forall m, MLP_init n_in (Some 0) (Some 0) act key init_fn kw = Some m ->
             out_features (mlp_fc1 m) = n_in /\
             in_features (mlp_fc2 m) = n_in /\
             out_features (mlp_fc2 m) = n_in) /\
  (forall s, SCM_init n_in (Some 0) act key init_fn kw = Some s ->
             out_features (scm_fc1 s) = n_in) /\
  (forall g, GatedNet_init n_in (Some 0) gate key init_fn kw = Some g ->
             out_features (gn_fc1 g) = n_in) /\
  (n_in <> 0 -> py_or hidden n_in <> 0 /\ py_or out n_in <> 0) /\
  (forall m, MLP_init n_in hidden out act key init_fn kw = Some m ->
             in_features (mlp_fc1 m) <> 0 /\
             out_features (mlp_fc1 m) <> 0 /\
             in_features (mlp_fc2 m) <> 0 /\
             out_features (mlp_fc2 m) <> 0) /\
  (forall s, SCM_init n_in hidden act key init_fn kw = Some s ->
             in_features (scm_fc1 s) <> 0 /\
             out_features (scm_fc1 s) <> 0) /\
  (forall g, GatedNet_init n_in hidden gate key init_fn kw = Some g ->
             in_features (gn_fc1 g) <> 0 /\
             out_features (gn_fc1 g) <> 0).
Proof.
  assert (Hlayer : forall a b k (l : Linear R),
             Linear_init_kw a b k init_fn kw = Some l ->
             in_features l <> 0 /\ out_features l <> 0).
  { intros a b k l E.
    destruct (Linear_init_kw_features _ _ _ _ _ E) as [-> ->].
    unfold Linear_init_kw in E. rewrite Linear_init_eq in E.
    destruct (accepts_features a b) eqn:Ha; [ | discriminate].
    destruct (Hhost _ _ Ha). split; lia. }
  split; [repeat split | ].
  split; [ | split; [ | split; [ | split; [ | split; [ | split]]]]].
  - intros m E. apply MLP_init_features in E. simpl in E.
    destruct E as [_ [E1 [E2 [E3 _]]]]. repeat split; assumption.
  - intros s E. unfold SCM_init in E. cbv zeta in E.
    apply bind_Some in E. destruct E as [fc1 [E1 E]].
    injection E as <-. cbn.
    apply Linear_init_kw_features in E1. exact (proj2 E1).
  - intros g E. unfold GatedNet_init in E. cbv zeta in E.
    apply bind_Some in E. destruct E as [fc1 [E1 E]].
    injection E as <-. cbn.
    apply Linear_init_kw_features in E1. exact (proj2 E1).
  - intros Hin. split; apply py_or_nonzero; exact Hin.
  - intros m E. unfold MLP_init in E. cbv zeta in E.
    destruct (split key) as [key1 key2].
    apply bind_Some in E. destruct E as [fc1 [E1 E]].
    apply bind_Some in E. destruct E as [fc2 [E2 E]].
    injection E as <-. cbn.
    destruct (Hlayer _ _ _ _ E1), (Hlayer _ _ _ _ E2).
    repeat split; assumption.
  - intros s E. unfold SCM_init in E. cbv zeta in E.
    apply bind_Some in E. destruct E as [fc1 [E1 E]].
    injection E as <-. cbn. exact (Hlayer _ _ _ _ E1).
  - intros g E. unfold GatedNet_init in E. cbv zeta in E.
    apply bind_Some in E. destruct E as [fc1 [E1 E]].
    injection E as <-. cbn. exact (Hlayer _ _ _ _ E1).
Qed.
End ConstructionFacts.

Section ForwardContracts.
Context {R : Type} {HN : HostNum R}.
Context {Key : Type} {HR : HostInit Key R} {InitKw : Type}.

(** ** MLP *)

(** C1.  [MLP.forward_pass x] returns exactly the pair [(y, preact)]
    with [preact = fc1.apply x] and
    [y = fc2.apply (act preact) / num_hiddens], every entry of the
    second layer's output divided by [num_hiddens] taken as a number of
    the host; it raises exactly when one of the two layer applications
    does; [MLP.__call__ x] is the first component of that pair; and in
    a constructed [MLP] [num_hiddens] is the hidden width, the output
    width of [fc1] and the input width of [fc2]. *)
Theorem MLP_forward_pass_contract (self : MLP R) (x : Array R) (key : Key) :
  (forall y preact,
      MLP_forward_pass self x key = Some (y, preact) <->
      Linear_apply (mlp_fc1 self) x = Some preact /\
      exists h, Linear_apply (mlp_fc2 self) (mlp_act self preact) = Some h /\
                y = match h with
                    | Scalar r => Scalar (rdiv r (rint (num_hiddens self)))
                    | Vector v =>
                        Vector (map (fun r => rdiv r (rint (num_hiddens self)))
                                    v)
                    end) /\
  (MLP_forward_pass self x key = None <->
   Linear_apply (mlp_fc1 self) x = None \/
   exists preact, Linear_apply (mlp_fc1 self) x = Some preact /\
                  Linear_apply (mlp_fc2 self) (mlp_act self preact) = None) /\
  MLP_call self x key = option_map fst (MLP_forward_pass self x key) /\
  (forall n_in hidden out (init_key : Key)
          (init_fn : Initializer R Key InitKw) (kw : LinearKwargs R InitKw),
      MLP_init n_in hidden out (mlp_act self) init_key init_fn kw
        = Some self ->
      num_hiddens self = out_features (mlp_fc1 self) /\
      num_hiddens self = in_features (mlp_fc2 self)).
Proof.
  assert (Hwidth :
    forall n_in hidden out (init_key : Key)
           (init_fn : Initializer R Key InitKw) (kw : LinearKwargs R InitKw),
      MLP_init n_in hidden out (mlp_act self) init_key init_fn kw
        = Some self ->
      num_hiddens self = out_features (mlp_fc1 self) /\
      num_hiddens self = in_features (mlp_fc2 self)).
  { intros n_in hidden out init_key init_fn kw E.
    apply MLP_init_features in E.
    destruct E as [_ [E1 [E2 [_ E3]]]]. split; congruence. }
  assert (Hdiv : forall h : Array R,
    div_int h (num_hiddens self)
    = match h with
      | Scalar r => Scalar (rdiv r (rint (num_hiddens self)))
      | Vector v =>
          Vector (map (fun r => rdiv r (rint (num_hiddens self))) v)
      end).
  { intros [r|v]; reflexivity. }
  unfold MLP_call, MLP_forward_pass.
  destruct (Linear_apply (mlp_fc1 self) x) as [p|] eqn:E1; cbn [bind].
  - destruct (Linear_apply (mlp_fc2 self) (mlp_act self p)) as [h|] eqn:E2;
      cbn [bind option_map fst].
    + split; [ | split; [ | split; [reflexivity | exact Hwidth]]].
      * intros y preact. rewrite Hdiv. split.
        -- intros E. injection E as <- <-. split; [reflexivity | ].
           exists h. split; [exact E2 | reflexivity].
        -- intros [Ep [h' [Eh ->]]]. injection Ep as <-.
           rewrite E2 in Eh. injection Eh as <-. reflexivity.
      * split; [discriminate | ].
        intros [E | [p' [Ep E]]]; [discriminate | ].
        injection Ep as <-. rewrite E2 in E. discriminate.
    + split; [ | split; [ | split; [reflexivity | exact Hwidth]]].
      * intros y preact. split; [discriminate | ].
        intros [Ep [h' [Eh _]]]. injection Ep as <-.
        rewrite E2 in Eh. discriminate.
      * split; [ | reflexivity].
        intros _. right. exists p. split; [reflexivity | exact E2].
  - split; [ | split; [ | split; [reflexivity | exact Hwidth]]].
    + intros y preact. split; [discriminate | ].
      intros [Ep _]. discriminate.
    + split; [ | reflexivity]. intros _. left. reflexivity.
Qed.

(** ** SCM *)

(** C2.  [SCM.forward_pass x] returns exactly the pair [(y, preact)]
    with [preact = fc1.apply x] and [y] the arithmetic mean of
    [act preact], a single element of the host's number type: the sum
    of the entries over their count.  It raises exactly when
    [fc1.apply x] does, and [SCM.__call__ x] returns [y] alone. *)
Theorem SCM_forward_pass_contract (self : SCM R) (x : Array R) (key : Key) :
  (forall y preact,
      SCM_forward_pass self x key = Some (y, preact) <->
      Linear_apply (scm_fc1 self) x = Some preact /\
      y = rdiv (fold_left radd (elements (scm_act self preact)) rzero)
               (rint (Z.of_nat (length (elements (scm_act self preact)))))) /\
  (SCM_forward_pass self x key = None <->
   Linear_apply (scm_fc1 self) x = None) /\
  SCM_call self x key = option_map fst (SCM_forward_pass self x key).
Proof.
  unfold SCM_call, SCM_forward_pass, jnp_mean, asum.
  destruct (Linear_apply (scm_fc1 self) x) as [p|] eqn:E1; simpl.
  - split; [ | split; [ | reflexivity]].
    + intros y preact. split.
      * intros E. injection E as <- <-. split; reflexivity.
      * intros [Ep ->]. injection Ep as <-. reflexivity.
    + split; discriminate.
  - split; [ | split; [ | reflexivity]].
    + intros y preact. split; [discriminate | ].
      intros [Ep _]. discriminate.
    + split; reflexivity.
Qed.

(** ** GatedNet *)

Lemma amul_same_length (u v : list R) :
  length u = length v ->
  amul (Vector u) (Vector v) = Some (Vector (zip_with rmul u v)).
Proof.
  intros E. unfold amul, broadcast.
  rewrite (proj2 (Nat.eqb_eq _ _) E). reflexivity.
Qed.

Lemma zip_with_combine (f : R -> R -> R) (u v : list R) :
  zip_with f u v = map (fun cd => f (fst cd) (snd cd)) (combine u v).
Proof.
  revert v. induction u as [|c u IH]; intros [|d v]; simpl;
    try reflexivity.
  rewrite IH. reflexivity.
Qed.

(** C3, as the code has it.  [GatedNet.forward_pass x] returns exactly
    the quadruple [(y, preacts, gates, postacts)] with
    [preacts = fc1.apply x], [gates = gate x] as the gate returns it,
    [postacts = gates * preacts] and [y] the sum of the entries of
    [postacts] over their count; [GatedNet.__call__ x] returns [y]
    alone.  The product is NumPy's for scalars and vectors: a scalar
    gate multiplies every pre-activation, vectors of one length are
    multiplied entry by entry, a vector of length one is stretched
    over the other, and vectors of other lengths raise, as does a
    failing [fc1.apply x]. *)
Theorem GatedNet_forward_pass_contract (self : GatedNet R) (x : Array R)
    (key : Key) :
  let product (g p : Array R) : option (Array R) :=
    match g, p with
    | Scalar c, Scalar d => Some (Scalar (rmul c d))
    | Scalar c, Vector v => Some (Vector (map (rmul c) v))
    | Vector u, Scalar d => Some (Vector (map (fun c => rmul c d) u))
    | Vector u, Vector v =>
        if (length u =? length v)%nat
        then Some (Vector (map (fun cd => rmul (fst cd) (snd cd))
                               (combine u v)))
        else match u, v with
             | [c], _ => Some (Vector (map (rmul c) v))
             | _, [d] => Some (Vector (map (fun c => rmul c d) u))
             | _, _ => None
             end
    end in
  (forall y preacts gates postacts,
      GatedNet_forward_pass self x key
        = Some (y, preacts, gates, postacts) <->
      Linear_apply (gn_fc1 self) x = Some preacts /\
      gates = gn_gate self x /\
      product gates preacts = Some postacts /\
      y = rdiv (fold_left radd (elements postacts) rzero)
               (rint (Z.of_nat (length (elements postacts))))) /\
  (GatedNet_forward_pass self x key = None <->
   Linear_apply (gn_fc1 self) x = None \/
   exists preacts, Linear_apply (gn_fc1 self) x = Some preacts /\
                   product (gn_gate self x) preacts = None) /\
  GatedNet_call self x key
    = option_map (fun r => fst (fst (fst r)))
                 (GatedNet_forward_pass self x key).
Proof.
  intros product.
  assert (Hp : forall g p, product g p = amul g p).
  { intros [c|u] [d|v]; try reflexivity.
    unfold product, amul, broadcast. rewrite zip_with_combine.
    reflexivity. }
  clearbody product.
  unfold GatedNet_call, GatedNet_forward_pass, jnp_mean, asum.
  destruct (Linear_apply (gn_fc1 self) x) as [p|] eqn:E1; cbn [bind].
  - destruct (amul (gn_gate self x) p) as [q|] eqn:E2;
      cbn [bind option_map fst].
    + split; [ | split; [ | reflexivity]].
      * intros y preacts gates postacts. rewrite Hp. split.
        -- intros E. injection E as <- <- <- <-.
           repeat split; try reflexivity; exact E2.
        -- intros [Ep [-> [Eq ->]]]. injection Ep as <-.
           rewrite E2 in Eq. injection Eq as <-. reflexivity.
      * split; [discriminate | ].
        intros [E | [p' [Ep E]]]; [discriminate | ].
        injection Ep as <-. rewrite Hp, E2 in E. discriminate.
    + split; [ | split; [ | reflexivity]].
      * intros y preacts gates postacts. rewrite Hp.
        split; [discriminate | ].
        intros [Ep [-> [Eq _]]]. injection Ep as <-.
        rewrite E2 in Eq. discriminate.
      * split; [ | reflexivity].
        intros _. right. exists p. split; [reflexivity | ].
        rewrite Hp. exact E2.
  - split; [ | split; [ | reflexivity]].
    + intros y preacts gates postacts. split; [discriminate | ].
      intros [Ep _]. discriminate.
    + split; [ | reflexivity]. intros _. left. reflexivity.
Qed.

(** ** Call-time key *)

(** C9.  The key handed to [forward_pass] or [__call__] is not read:
    on one instance and one input any two keys give the same result,
    for [MLP], [SCM] and [GatedNet] alike. *)
Theorem forward_ignores_call_key (mlp : MLP R) (scm : SCM R)
    (gn : GatedNet R) (x : Array R) (key1 key2 : Key) :
  MLP_forward_pass mlp x key1 = MLP_forward_pass mlp x key2 /\
  MLP_call mlp x key1 = MLP_call mlp x key2 /\
  SCM_forward_pass scm x key1 = SCM_forward_pass scm x key2 /\
  SCM_call scm x key1 = SCM_call scm x key2 /\
  GatedNet_forward_pass gn x key1 = GatedNet_forward_pass gn x key2 /\
  GatedNet_call gn x key1 = GatedNet_call gn x key2.
Proof.
  repeat split.
Qed.

(** ** GatedNet against SCM *)

Lemma amul_one (a : Array R) :
  (forall r, rmul rone r = r) -> amul (Scalar rone) a = Some a.
Proof.
  intros Hone. destruct a as [r|v]; simpl.
  - unfold amul. simpl. rewrite Hone. reflexivity.
  - unfold amul. simpl. f_equal. f_equal.
    induction v as [|r v IH]; simpl; [reflexivity | ].
    rewrite Hone, IH. reflexivity.
Qed.

(** C4.  A [GatedNet] whose gate is the constant [1.] and an [SCM]
    with the identity activation, on the same [fc1], give the same
    output on every input: the same first component of
    [forward_pass] and the same value of [__call__] (and both raise
    together).  The host's product is taken to have [1.] as a left
    unit, as floating-point multiplication has. *)
Theorem GatedNet_unit_gate_is_SCM (gn : GatedNet R) (scm : SCM R)
    (x : Array R) (key1 key2 : Key)
    (Hone : forall r : R, rmul rone r = r)
    (Hfc1 : gn_fc1 gn = scm_fc1 scm)
    (Hgate : forall a, gn_gate gn a = Scalar rone)
    (Hact : forall a, scm_act scm a = a) :
  GatedNet_call gn x key1 = SCM_call scm x key2 /\
  option_map (fun r => fst (fst (fst r))) (GatedNet_forward_pass gn x key1)
    = option_map fst (SCM_forward_pass scm x key2).
Proof.
  unfold GatedNet_call, SCM_call, GatedNet_forward_pass, SCM_forward_pass.
  rewrite Hfc1, Hgate.
  destruct (Linear_apply (scm_fc1 scm) x) as [p|]; cbn [bind];
    [ | split; reflexivity].
  rewrite (amul_one p Hone), Hact. cbn [bind]. split; reflexivity.
Qed.
End ForwardContracts.

Section StopGradientFacts.
Context {R : Type} {HN : HostNum R}.
Context {Key : Type} {HR : HostInit Key R} {InitKw : Type}.

(** *** Forward reads *)

Lemma jax_array_vec_forward (p : Param (list R)) :
  (forall r : R, lax_stop_gradient r = r) -> jax_array_vec p = wrapped p.
Proof.
  intros Hfwd. destruct p as [a|a]; simpl; [reflexivity | ].
  induction a as [|r a IH]; simpl; [reflexivity | ].
  rewrite Hfwd, IH. reflexivity.
Qed.

Lemma jax_array_mat_forward (p : Param (Matrix R)) :
  (forall r : R, lax_stop_gradient r = r) -> jax_array_mat p = wrapped p.
Proof.
  intros Hfwd. destruct p as [a|a]; simpl; [reflexivity | ].
  induction a as [|row a IH]; simpl; [reflexivity | ].
  rewrite IH. f_equal.
  exact (jax_array_vec_forward (StopGradient row) Hfwd).
Qed.

Lemma Linear_apply_unfreeze (l : Linear R) (x : Array R) :
  (forall r : R, lax_stop_gradient r = r) ->
  Linear_apply l x = Linear_apply (unfreeze l) x.
Proof.
  intros Hfwd. unfold Linear_apply, unfreeze. cbn [weight bias].
  rewrite (jax_array_mat_forward (weight l) Hfwd). cbn [jax_array_mat].
  destruct (matmul (wrapped (weight l)) x) as [y|]; [ | reflexivity].
  cbn [bind]. destruct (bias l) as [b|]; [ | reflexivity].
  cbn [option_map]. rewrite (jax_array_vec_forward b Hfwd). reflexivity.
Qed.

(** *** Differentiation *)

Lemma stop_gradient_vec_primal (v1 v2 : list (Dual R)) :
  map primal v1 = map primal v2 ->
  map lax_stop_gradient v1 = map lax_stop_gradient v2.
Proof.
  revert v2. induction v1 as [|d1 v1 IH]; intros [|d2 v2] E;
    simpl in *; try discriminate; [reflexivity | ].
  injection E as Ed Ev. f_equal; [ | exact (IH v2 Ev)].
  unfold dual_stop_gradient. rewrite Ed. reflexivity.
Qed.

Lemma stop_gradient_mat_primal (W1 W2 : Matrix (Dual R)) :
  map (map primal) W1 = map (map primal) W2 ->
  map (map lax_stop_gradient) W1 = map (map lax_stop_gradient) W2.
Proof.
  revert W2. induction W1 as [|r1 W1 IH]; intros [|r2 W2] E;
    simpl in *; try discriminate; [reflexivity | ].
  injection E as Er EW.
  f_equal; [exact (stop_gradient_vec_primal _ _ Er) | exact (IH W2 EW)].
Qed.

Lemma stop_gradient_constant (v : list (Dual R)) :
  Forall is_constant (map lax_stop_gradient v).
Proof.
  induction v as [|d v IH]; simpl; constructor; [reflexivity | exact IH].
Qed.

Lemma dual_add_constant (a b : Dual R) :
  is_constant a -> is_constant b -> is_constant (dual_add a b).
Proof.
  unfold is_constant, dual_add. simpl. intros -> ->. reflexivity.
Qed.

Lemma dual_mul_constant (a b : Dual R) :
  is_constant a -> is_constant b -> is_constant (dual_mul a b).
Proof.
  unfold is_constant, dual_mul. simpl. intros -> ->. reflexivity.
Qed.

Lemma zip_with_constant (f : Dual R -> Dual R -> Dual R)
    (u v : list (Dual R)) :
  (forall a b, is_constant a -> is_constant b -> is_constant (f a b)) ->
  Forall is_constant u -> Forall is_constant v ->
  Forall is_constant (zip_with f u v).
Proof.
  intros Hf Hu. revert v.
  induction Hu as [|a u Ha Hu IH]; intros v Hv; simpl; [constructor | ].
  destruct Hv as [|b v Hb Hv]; constructor; auto.
Qed.

Lemma asum_constant (l : list (Dual R)) :
  Forall is_constant l -> is_constant (asum l).
Proof.
  unfold asum. assert (H0 : is_constant (rzero : Dual R)) by reflexivity.
  revert H0. generalize (rzero : Dual R) as acc.
  induction l as [|d l IH]; intros acc Hacc Hl; simpl; [exact Hacc | ].
  inversion Hl as [|? ? Hd Hl']; subst.
  apply IH; [ | exact Hl']. exact (dual_add_constant Hacc Hd).
Qed.

Lemma broadcast_constant (f : Dual R -> Dual R -> Dual R)
    (a b c : Array (Dual R)) :
  (forall x y, is_constant x -> is_constant y -> is_constant (f x y)) ->
  constant_array a -> constant_array b ->
  broadcast f a b = Some c -> constant_array c.
Proof.
  unfold constant_array. intros Hf Ha Hb E.
  assert (Hl : forall x v, is_constant x -> Forall is_constant v ->
                           Forall is_constant (map (f x) v)).
  { intros x v Hx Hv. induction Hv; simpl; constructor; auto. }
  assert (Hr : forall y u, is_constant y -> Forall is_constant u ->
                           Forall is_constant (map (fun x => f x y) u)).
  { intros y u Hy Hu. induction Hu; simpl; constructor; auto. }
  destruct a as [x|u], b as [y|v]; simpl in *.
  - injection E as <-. simpl. constructor; [ | constructor].
    apply Hf; [inversion Ha | inversion Hb]; assumption.
  - injection E as <-. simpl. apply Hl; [inversion Ha | ]; assumption.
  - injection E as <-. simpl. apply Hr; [inversion Hb | ]; assumption.
  - destruct (length u =? length v)%nat.
    + injection E as <-. simpl. apply zip_with_constant; assumption.
    + destruct u as [|x [|x' u]].
      * destruct v as [|y [|y' v]]; try discriminate.
        injection E as <-. constructor.
      * injection E as <-. simpl. apply Hl; [inversion Ha | ]; assumption.
      * destruct v as [|y [|y' v]]; try discriminate.
        injection E as <-. apply (Hr y (x :: x' :: u)); [ | assumption].
        inversion Hb; assumption.
Qed.

Lemma matmul_constant (W : Matrix (Dual R)) (x y : Array (Dual R)) :
  Forall (Forall is_constant) W -> constant_array x ->
  matmul W x = Some y -> constant_array y.
Proof.
  unfold constant_array. intros HW Hx E.
  destruct x as [r|v]; simpl in E; [discriminate | ].
  destruct (forallb _ W); [ | discriminate]. injection E as <-.
  simpl in *. induction HW as [|row W Hrow HW IH]; simpl; constructor.
  - apply asum_constant.
    apply zip_with_constant; try assumption. exact dual_mul_constant.
  - exact IH.
Qed.

(** C8.  With the host's [stop_gradient] returning its operand on a
    forward read, a layer applies exactly as the layer with the same
    parameter values left trainable does; a layer built with
    [weight_trainable] or [bias_trainable] false has that parameter
    wrapped and applies as the layer the same arguments build with
    both flags true.  Under differentiation the tangents seeded on a
    frozen weight or a frozen bias do not reach the output of the
    layer, and when nothing but frozen parameters is differentiated the
    whole output is constant: its derivative is the symbolic zero. *)
Theorem frozen_parameter_contract
    (Hfwd : forall r : R, lax_stop_gradient r = r) :
  (forall (l : Linear R) (x : Array R),
      Linear_apply l x = Linear_apply (unfreeze l) x) /\
  (forall n_in n_out ub wt bv bt (key : Key)
          (init_fn : Initializer R Key InitKw) (kw : InitKw) (l : Linear R),
      Linear_init n_in n_out ub wt bv bt key init_fn kw = Some l ->
      is_frozen (weight l) = negb wt /\
      exists l',
        Linear_init n_in n_out ub true bv true key init_fn kw = Some l' /\
        wrapped (weight l') = wrapped (weight l) /\
        forall x, Linear_apply l x = Linear_apply l' x) /\
  (forall (l : Linear (Dual R)) (W1 W2 : Matrix (Dual R)) x,
      map (map primal) W1 = map (map primal) W2 ->
      Linear_apply (set_weight l (StopGradient W1)) x
        = Linear_apply (set_weight l (StopGradient W2)) x) /\
  (forall (l : Linear (Dual R)) (b1 b2 : list (Dual R)) x,
      map primal b1 = map primal b2 ->
      Linear_apply (set_bias l (Some (StopGradient b1))) x
        = Linear_apply (set_bias l (Some (StopGradient b2))) x) /\
  (forall (l : Linear (Dual R)) (x y : Array (Dual R)),
      is_frozen (weight l) = true ->
      (forall b, bias l = Some b -> is_frozen b = true) ->
      constant_array x ->
      Linear_apply l x = Some y ->
      constant_array y).
Proof.
  split; [ | split; [ | split; [ | split]]].
  - intros l x. exact (Linear_apply_unfreeze l x Hfwd).
  - intros n_in n_out ub wt bv bt key init_fn kw l E.
    apply Linear_init_unfreeze in E. destruct E as [E Hw].
    split; [exact Hw | ]. exists (unfreeze l).
    split; [exact E | ]. split; [reflexivity | ].
    intros x. exact (Linear_apply_unfreeze l x Hfwd).
  - intros l W1 W2 x E. unfold Linear_apply, set_weight.
    cbn [weight bias jax_array_mat].
    rewrite (stop_gradient_mat_primal _ _ E). reflexivity.
  - intros l b1 b2 x E. unfold Linear_apply, set_bias.
    cbn [weight bias jax_array_vec].
    rewrite (stop_gradient_vec_primal _ _ E). reflexivity.
  - intros l x y Hw Hb Hx E. unfold Linear_apply in E.
    apply bind_Some in E. destruct E as [z [Ez E]].
    assert (Hz : constant_array z).
    { apply (matmul_constant (W := jax_array_mat (weight l)) (x := x));
        try assumption.
      destruct (weight l) as [W|W]; [discriminate | ]. simpl.
      clear. induction W as [|row W IH]; simpl; constructor;
        [apply stop_gradient_constant | exact IH]. }
    destruct (bias l) as [b|] eqn:Eb.
    + apply (broadcast_constant (a := z) (b := Vector (jax_array_vec b))
               radd);
        try assumption; [exact dual_add_constant | ].
      specialize (Hb b eq_refl). destruct b as [v|v]; [discriminate | ].
      unfold constant_array. simpl. apply stop_gradient_constant.
    + injection E as <-. exact Hz.
Qed.
End StopGradientFacts.

Section ModelFacts.
Context {R : Type} {HN : HostNum R}.
Context {Key : Type} {HR : HostInit Key R} {InitKw : Type}.

Implicit Types (init_fn : Initializer R Key InitKw) (key : Key).

(** ** Well-shaped layers *)

(** The shapes of the parameters of a constructed layer, as a host
    operator reads them. *)
Lemma Linear_init_wellshaped (n_in n_out : Z) (ub wt : bool) (bv : R)
    (bt : bool) key init_fn (kw : InitKw) (l : Linear R) :
  keeps_shape init_fn ->
  Linear_init n_in n_out ub wt bv bt key init_fn kw = Some l ->
  map (@length R) (jax_array_mat (weight l))
    = repeat (Z.to_nat n_in) (Z.to_nat n_out) /\
  (forall b, bias l = Some b -> length (jax_array_vec b) = Z.to_nat n_out).
Proof.
  intros Hshape Hl. rewrite Linear_init_eq in Hl.
  destruct (accepts_features n_in n_out); [ | discriminate].
  cbv zeta in Hl. injection Hl as <-. cbn [weight bias]. split.
  - rewrite jax_array_mat_shape.
    replace (wrapped (if wt then Raw _ else StopGradient _))
      with (init_fn (default_weight (fst (split key)) n_in n_out) key kw)
      by (destruct wt; reflexivity).
    rewrite Hshape. apply default_weight_shape.
  - intros b Hb. destruct ub; [ | discriminate]. injection Hb as <-.
    rewrite jax_array_vec_length.
    replace (wrapped (if bt then Raw _ else StopGradient _))
      with (scale bv (ones_like (default_bias (snd (split key)) n_in n_out)))
      by (destruct bt; reflexivity).
    unfold scale, ones_like. rewrite !length_map.
    apply default_bias_length.
Qed.

Lemma Linear_apply_wellshaped (l : Linear R) (v : list R) (n m : nat) :
  map (@length R) (jax_array_mat (weight l)) = repeat n m ->
  (forall b, bias l = Some b -> length (jax_array_vec b) = m) ->
  length v = n ->
  exists y, Linear_apply l (Vector v) = Some (Vector y) /\ length y = m.
Proof.
  intros HW Hb Hv. unfold Linear_apply. rewrite <- Hv in HW.
  destruct (@matmul_shape _ _ (jax_array_mat (weight l)) v m HW)
    as [-> Hlen].
  cbn [bind]. destruct (bias l) as [b|].
  - specialize (Hb b eq_refl). unfold aadd, broadcast.
    assert (Hy : length (map (fun row => dot row v)
                            (jax_array_mat (weight l)))
                 = length (jax_array_vec b)).
    { rewrite length_map, Hlen, Hb. reflexivity. }
    rewrite (proj2 (Nat.eqb_eq _ _) Hy).
    eexists. split; [reflexivity | ].
    rewrite (@zip_with_length _ _ _ _ Hy), length_map. exact Hlen.
  - eexists. split; [reflexivity | ]. rewrite length_map. exact Hlen.
Qed.

Lemma matmul_mismatch (W : Matrix R) (v : list R) (n m : nat) :
  map (@length R) W = repeat n (S m) -> length v <> n ->
  matmul W (Vector v) = None.
Proof.
  intros HW Hv. unfold matmul.
  destruct W as [|row W]; [discriminate | ]. simpl in HW.
  injection HW as Hrow _. cbn [forallb].
  rewrite Hrow, (proj2 (Nat.eqb_neq n (length v))); [reflexivity | ].
  intros E. apply Hv. symmetry. exact E.
Qed.

(** X2.  A layer built by [Linear.__init__] with at least one output
    feature and an initializer that keeps the shape of the weight
    raises on every vector whose length is not [in_features], and on
    every 0-d input: no input is truncated or padded to fit. *)
Theorem Linear_apply_rejects (n_in n_out : Z) (ub wt : bool) (bv : R)
    (bt : bool) key init_fn (kw : InitKw) (l : Linear R)
    (Hshape : keeps_shape init_fn)
    (Hl : Linear_init n_in n_out ub wt bv bt key init_fn kw = Some l)
    (Hout : 0 < n_out) :
  (forall v, length v <> Z.to_nat n_in -> Linear_apply l (Vector v) = None) /\
  (forall r, Linear_apply l (Scalar r) = None).
Proof.
  destruct (@Linear_init_wellshaped _ _ _ _ _ _ _ _ _ _ Hshape Hl)
    as [HW _].
  split.
  - intros v Hv. unfold Linear_apply.
    destruct (Z.to_nat n_out) as [|m] eqn:Em; [lia | ].
    rewrite (@matmul_mismatch _ _ _ _ HW Hv). reflexivity.
  - intros r. reflexivity.
Qed.

(** X3.  Without [use_bias] the layer has no bias, [bias_value] and
    [bias_trainable] are not read, and the layer applies as the bare
    product with its weight. *)
Theorem Linear_init_without_bias (n_in n_out : Z) (wt : bool)
    (bv bv' : R) (bt bt' : bool) key init_fn (kw : InitKw) (l : Linear R)
    (Hl : Linear_init n_in n_out false wt bv bt key init_fn kw = Some l) :
  bias l = None /\
  use_bias l = false /\
  Linear_init n_in n_out false wt bv' bt' key init_fn kw = Some l /\
  (forall x, Linear_apply l x = matmul (jax_array_mat (weight l)) x).
Proof.
  rewrite Linear_init_eq in *.
  destruct (accepts_features n_in n_out); [ | discriminate].
  cbv zeta in *. injection Hl as <-. cbn [bias use_bias].
  repeat split. intros x. unfold Linear_apply. cbn [bias weight].
  destruct (matmul _ x); reflexivity.
Qed.

(** X10.  The weight of a built layer is the initializer applied to
    the host's default weight, with the very key the host constructor
    was given and the keyword arguments; it is wrapped exactly when
    [weight_trainable] is false, and [use_bias], [bias_value] and
    [bias_trainable] have no part in it. *)
Theorem Linear_init_weight (n_in n_out : Z) (ub wt : bool) (bv : R)
    (bt : bool) key init_fn (kw : InitKw) (l : Linear R)
    (Hl : Linear_init n_in n_out ub wt bv bt key init_fn kw = Some l) :
  wrapped (weight l)
    = init_fn (default_weight (fst (split key)) n_in n_out) key kw /\
  is_frozen (weight l) = negb wt /\
  (forall ub' bv' bt',
      exists l',
        Linear_init n_in n_out ub' wt bv' bt' key init_fn kw = Some l' /\
        weight l' = weight l).
Proof.
  rewrite Linear_init_eq in Hl.
  destruct (accepts_features n_in n_out) eqn:Ha; [ | discriminate].
  cbv zeta in Hl. injection Hl as <-. cbn [weight].
  split; [destruct wt; reflexivity | ].
  split; [destruct wt; reflexivity | ].
  intros ub' bv' bt'. rewrite Linear_init_eq, Ha. cbv zeta.
  eexists. split; reflexivity.
Qed.

(** ** Construction of the models *)

(** ** Forward passes of constructed models *)

Lemma MLP_init_inv (n_in : Z) (hidden out : option Z)
    (act : Array R -> Array R) key init_fn (kw : LinearKwargs R InitKw)
    (m : MLP R) :
  MLP_init n_in hidden out act key init_fn kw = Some m ->
  Linear_init_kw n_in (py_or hidden n_in) (fst (split key)) init_fn kw
    = Some (mlp_fc1 m) /\
  Linear_init_kw (py_or hidden n_in) (py_or out n_in) (snd (split key))
                 init_fn kw
    = Some (mlp_fc2 m) /\
  mlp_act m = act /\
  num_hiddens m = py_or hidden n_in.
Proof.
  unfold MLP_init. cbv zeta. destruct (split key) as [key1 key2].
  cbn [fst snd]. intros E.
  apply bind_Some in E. destruct E as [fc1 [E1 E]].
  apply bind_Some in E. destruct E as [fc2 [E2 E]].
  injection E as <-. cbn. repeat split; assumption.
Qed.

Lemma SCM_init_inv (n_in : Z) (hidden : option Z)
    (act : Array R -> Array R) key init_fn (kw : LinearKwargs R InitKw)
    (s : SCM R) :
  SCM_init n_in hidden act key init_fn kw = Some s ->
  Linear_init_kw n_in (py_or hidden n_in) key init_fn kw
    = Some (scm_fc1 s) /\
  scm_act s = act.
Proof.
  unfold SCM_init. cbv zeta. intros E.
  apply bind_Some in E. destruct E as [fc1 [E1 E]].
  injection E as <-. cbn. split; [assumption | reflexivity].
Qed.

Lemma GatedNet_init_inv (n_in : Z) (hidden : option Z)
    (gate : Array R -> Array R) key init_fn (kw : LinearKwargs R InitKw)
    (g : GatedNet R) :
  GatedNet_init n_in hidden gate key init_fn kw = Some g ->
  Linear_init_kw n_in (py_or hidden n_in) key init_fn kw
    = Some (gn_fc1 g) /\
  gn_gate g = gate.
Proof.
  unfold GatedNet_init. cbv zeta. intros E.
  apply bind_Some in E. destruct E as [fc1 [E1 E]].
  injection E as <-. cbn. split; [assumption | reflexivity].
Qed.

Lemma Linear_init_kw_apply (n_in n_out : Z) key init_fn
    (kw : LinearKwargs R InitKw) (l : Linear R) (v : list R) :
  keeps_shape init_fn ->
  Linear_init_kw n_in n_out key init_fn kw = Some l ->
  length v = Z.to_nat n_in ->
  exists y, Linear_apply l (Vector v) = Some (Vector y) /\
            length y = Z.to_nat n_out.
Proof.
  intros Hshape Hl Hv. unfold Linear_init_kw in Hl.
  destruct (@Linear_init_wellshaped _ _ _ _ _ _ _ _ _ _ Hshape Hl)
    as [HW Hb].
  exact (@Linear_apply_wellshaped l v _ _ HW Hb Hv).
Qed.

(** X5.  An [MLP] built by its constructor, with an initializer that
    keeps the shape of the weight and an activation that returns a
    vector of the length it is given, returns on every input vector of
    length [in_features]: the two layers fit, the pre-activations have
    the hidden width and the output has [out_features] entries, the
    widths being those left by the [or] fallback. *)
Theorem MLP_forward_pass_shape (n_in : Z) (hidden out : option Z)
    (act : Array R -> Array R) key init_fn (kw : LinearKwargs R InitKw)
    (m : MLP R) (v : list R) (call_key : Key)
    (Hshape : keeps_shape init_fn)
    (Hact : keeps_length act (Z.to_nat (py_or hidden n_in)))
    (Hm : MLP_init n_in hidden out act key init_fn kw = Some m)
    (Hv : length v = Z.to_nat n_in) :
  exists y preact,
    MLP_forward_pass m (Vector v) call_key = Some (Vector y, Vector preact) /\
    MLP_call m (Vector v) call_key = Some (Vector y) /\
    length preact = Z.to_nat (py_or hidden n_in) /\
    length y = Z.to_nat (py_or out n_in).
Proof.
  destruct (@MLP_init_inv _ _ _ _ _ _ _ _ Hm) as [H1 [H2 [Ha Hn]]].
  destruct (@Linear_init_kw_apply _ _ _ _ _ _ _ Hshape H1 Hv) as [p [Ep Hp]].
  destruct (Hact p Hp) as [u [Eu Hu]].
  destruct (@Linear_init_kw_apply _ _ _ _ _ _ _ Hshape H2 Hu) as [y [Ey Hy]].
  exists (map (fun r => rdiv r (rint (num_hiddens m))) y), p.
  unfold MLP_call, MLP_forward_pass.
  rewrite Ep. cbn [bind]. rewrite Ha, Eu, Ey. cbn [bind].
  repeat split; [exact Hp | ]. rewrite length_map. exact Hy.
Qed.

(** X6.  An [SCM] built by its constructor with an initializer that
    keeps the shape of the weight returns on every input vector of
    length [in_features], whatever the activation: the mean of the
    activations and pre-activations of the hidden width. *)
Theorem SCM_forward_pass_shape (n_in : Z) (hidden : option Z)
    (act : Array R -> Array R) key init_fn (kw : LinearKwargs R InitKw)
    (s : SCM R) (v : list R) (call_key : Key)
    (Hshape : keeps_shape init_fn)
    (Hs : SCM_init n_in hidden act key init_fn kw = Some s)
    (Hv : length v = Z.to_nat n_in) :
  exists preact,
    SCM_forward_pass s (Vector v) call_key
      = Some (jnp_mean (act (Vector preact)), Vector preact) /\
    SCM_call s (Vector v) call_key
      = Some (jnp_mean (act (Vector preact))) /\
    length preact = Z.to_nat (py_or hidden n_in).
Proof.
  destruct (@SCM_init_inv _ _ _ _ _ _ _ Hs) as [H1 Ha].
  destruct (@Linear_init_kw_apply _ _ _ _ _ _ _ Hshape H1 Hv) as [p [Ep Hp]].
  exists p. unfold SCM_call, SCM_forward_pass.
  rewrite Ep. cbn [bind]. rewrite Ha. repeat split. exact Hp.
Qed.

(** X7.  A [GatedNet] built by its constructor with an initializer that
    keeps the shape of the weight returns on every input vector of
    length [in_features] whose gates are a scalar, as the default
    gate's, or a vector of the hidden width; the gated activations then
    have the shape of the pre-activations. *)
Theorem GatedNet_forward_pass_shape (n_in : Z) (hidden : option Z)
    (gate : Array R -> Array R) key init_fn (kw : LinearKwargs R InitKw)
    (g : GatedNet R) (v : list R) (call_key : Key)
    (Hshape : keeps_shape init_fn)
    (Hg : GatedNet_init n_in hidden gate key init_fn kw = Some g)
    (Hv : length v = Z.to_nat n_in)
    (Hgate : (exists c, gate (Vector v) = Scalar c) \/
             (exists u, gate (Vector v) = Vector u /\
                        length u = Z.to_nat (py_or hidden n_in))) :
  exists preacts postacts,
    GatedNet_forward_pass g (Vector v) call_key
      = Some (jnp_mean (Vector postacts), Vector preacts,
              gate (Vector v), Vector postacts) /\
    GatedNet_call g (Vector v) call_key
      = Some (jnp_mean (Vector postacts)) /\
    length preacts = Z.to_nat (py_or hidden n_in) /\
    length postacts = length preacts.
Proof.
  destruct (@GatedNet_init_inv _ _ _ _ _ _ _ Hg) as [H1 Ha].
  destruct (@Linear_init_kw_apply _ _ _ _ _ _ _ Hshape H1 Hv) as [p [Ep Hp]].
  unfold GatedNet_call, GatedNet_forward_pass.
  rewrite Ep. cbn [bind]. rewrite Ha.
  destruct Hgate as [[c Ec] | [u [Eu Hu]]].
  - rewrite Ec. exists p, (map (rmul c) p). cbn.
    repeat split; [exact Hp | apply length_map].
  - rewrite Eu. exists p, (zip_with rmul u p).
    rewrite amul_same_length by congruence. cbn [bind fst].
    repeat split; [exact Hp | ].
    rewrite zip_with_length; congruence.
Qed.

(** X8.  [GatedNet] and [SCM] build the same first layer from the same
    arguments, so with their default gate and activation, constructing
    either and calling it on an input gives the same result: the same
    output, or an exception from both.  The host's product is taken to
    have [1.] as a left unit. *)
Theorem GatedNet_init_is_SCM_init (n_in : Z) (hidden : option Z)
    (act gate : Array R -> Array R) key init_fn
    (kw : LinearKwargs R InitKw)
    (Hone : forall r : R, rmul rone r = r) :
  option_map gn_fc1 (GatedNet_init n_in hidden gate key init_fn kw)
    = option_map scm_fc1 (SCM_init n_in hidden act key init_fn kw) /\
  (forall x (key1 key2 : Key),
      (g <- GatedNet_init n_in hidden default_gate key init_fn kw ;;
       GatedNet_call g x key1)
      = (s <- SCM_init n_in hidden default_act key init_fn kw ;;
         SCM_call s x key2)).
Proof.
  unfold GatedNet_init, SCM_init. cbv zeta.
  destruct (Linear_init_kw n_in (py_or hidden n_in) key init_fn kw)
    as [fc1|]; cbn [bind option_map]; [ | split; reflexivity].
  split; [reflexivity | ]. intros x key1 key2.
  unfold GatedNet_call, SCM_call, GatedNet_forward_pass, SCM_forward_pass.
  cbn [gn_fc1 scm_fc1 gn_gate scm_act]. unfold default_gate, default_act.
  destruct (Linear_apply fc1 x) as [p|]; cbn [bind]; [ | reflexivity].
  rewrite (amul_one p Hone). reflexivity.
Qed.
End ModelFacts.

Section FrozenModels.
Context {R : Type} {HN : HostNum R}.
Context {Key : Type} {HR : HostInit Key (Dual R)} {InitKw : Type}.

Lemma Linear_apply_constant (l : Linear (Dual R)) (x y : Array (Dual R)) :
  frozen_layer l -> constant_array x ->
  Linear_apply l x = Some y -> constant_array y.
Proof.
  intros [Hw Hb] Hx E. unfold Linear_apply in E.
  apply bind_Some in E. destruct E as [z [Ez E]].
  assert (Hz : constant_array z).
  { apply (matmul_constant (W := jax_array_mat (weight l)) (x := x));
      try assumption.
    destruct (weight l) as [W|W]; [discriminate | ]. simpl.
    clear. induction W as [|row W IH]; simpl; constructor;
      [apply stop_gradient_constant | exact IH]. }
  destruct (bias l) as [b|] eqn:Eb.
  - apply (broadcast_constant (a := z) (b := Vector (jax_array_vec b))
             radd);
      try assumption; [exact dual_add_constant | ].
    specialize (Hb b eq_refl). destruct b as [v|v]; [discriminate | ].
    unfold constant_array. simpl. apply stop_gradient_constant.
  - injection E as <-. exact Hz.
Qed.

Lemma Linear_init_kw_frozen (n_in n_out : Z) (key : Key)
    (init_fn : Initializer (Dual R) Key InitKw)
    (kw : LinearKwargs (Dual R) InitKw) (l : Linear (Dual R)) :
  kw_weight_trainable kw = false -> kw_bias_trainable kw = false ->
  Linear_init_kw n_in n_out key init_fn kw = Some l -> frozen_layer l.
Proof.
  intros Hwt Hbt. unfold Linear_init_kw. rewrite Linear_init_eq, Hwt, Hbt.
  destruct (accepts_features n_in n_out); [ | discriminate].
  cbv zeta. intros E. injection E as <-. split; [reflexivity | ].
  cbn [bias]. intros b Hb. destruct (kw_use_bias kw); [ | discriminate].
  injection Hb as <-. reflexivity.
Qed.

Lemma jnp_mean_constant (a : Array (Dual R)) :
  constant_array a -> is_constant (jnp_mean a).
Proof.
  intros Ha. unfold jnp_mean.
  pose proof (asum_constant Ha) as Hs. unfold is_constant in *.
  cbn [rdiv rint Dual_HostNum]. unfold dual_div.
  cbn [tangent constant]. rewrite Hs. reflexivity.
Qed.

Lemma div_int_constant (a : Array (Dual R)) (n : Z) :
  constant_array a -> constant_array (div_int a n).
Proof.
  unfold constant_array, div_int. intros Ha.
  assert (H : Forall is_constant
                (map (fun v : Dual R => rdiv v (rint n)) (elements a))).
  { induction Ha as [|d l Hd Hl IH]; simpl; constructor; [ | exact IH].
    unfold is_constant in *. unfold dual_div. cbn [tangent constant].
    rewrite Hd. reflexivity. }
  destruct a as [r|v]; exact H.
Qed.

(** X9.  Under the forward-mode reading of the host's differentiation,
    a model built with [weight_trainable=False] and [bias_trainable]
    false has nothing left to differentiate: on a constant input, with
    an activation or gate that makes constants of constants, every
    value that [forward_pass] returns is constant, whatever tangents
    the host and the initializer put on the parameters. *)
Theorem frozen_models_are_constant (n_in : Z) (hidden out : option Z)
    (act gate : Array (Dual R) -> Array (Dual R)) (key call_key : Key)
    (init_fn : Initializer (Dual R) Key InitKw)
    (kw : LinearKwargs (Dual R) InitKw) (x : Array (Dual R))
    (Hwt : kw_weight_trainable kw = false)
    (Hbt : kw_bias_trainable kw = false)
    (Hact : forall a, constant_array a -> constant_array (act a))
    (Hgate : constant_array (gate x))
    (Hx : constant_array x) :
  (forall m y preact,
      MLP_init n_in hidden out act key init_fn kw = Some m ->
      MLP_forward_pass m x call_key = Some (y, preact) ->
      constant_array y /\ constant_array preact) /\
  (forall s y preact,
      SCM_init n_in hidden act key init_fn kw = Some s ->
      SCM_forward_pass s x call_key = Some (y, preact) ->
      is_constant y /\ constant_array preact) /\
  (forall g y preacts gates postacts,
      GatedNet_init n_in hidden gate key init_fn kw = Some g ->
      GatedNet_forward_pass g x call_key
        = Some (y, preacts, gates, postacts) ->
      is_constant y /\ constant_array preacts /\ constant_array postacts).
Proof.
  split; [ | split].
  - intros m y preact Hm E.
    destruct (@MLP_init_inv _ _ _ _ _ _ _ _ _ _ _ _ _ Hm)
      as [H1 [H2 [Ha _]]].
    apply (Linear_init_kw_frozen _ _ _ _ _ Hwt Hbt) in H1, H2.
    unfold MLP_forward_pass in E.
    apply bind_Some in E. destruct E as [p [Ep E]].
    apply bind_Some in E. destruct E as [h [Eh E]].
    injection E as <- <-.
    pose proof (Linear_apply_constant H1 Hx Ep) as Hp.
    split; [ | exact Hp]. apply div_int_constant.
    apply (Linear_apply_constant H2 (x := mlp_act m p)); [ | exact Eh].
    rewrite Ha. apply Hact. exact Hp.
  - intros s y preact Hs E.
    destruct (@SCM_init_inv _ _ _ _ _ _ _ _ _ _ _ _ Hs) as [H1 Ha].
    apply (Linear_init_kw_frozen _ _ _ _ _ Hwt Hbt) in H1.
    unfold SCM_forward_pass in E.
    apply bind_Some in E. destruct E as [p [Ep E]].
    injection E as <- <-.
    pose proof (Linear_apply_constant H1 Hx Ep) as Hp.
    split; [ | exact Hp]. apply jnp_mean_constant.
    rewrite Ha. apply Hact. exact Hp.
  - intros g y preacts gates postacts Hg E.
    destruct (@GatedNet_init_inv _ _ _ _ _ _ _ _ _ _ _ _ Hg) as [H1 Ha].
    apply (Linear_init_kw_frozen _ _ _ _ _ Hwt Hbt) in H1.
    unfold GatedNet_forward_pass in E.
    apply bind_Some in E. destruct E as [p [Ep E]].
    apply bind_Some in E. destruct E as [q [Eq E]].
    injection E as <- <- <- <-.
    pose proof (Linear_apply_constant H1 Hx Ep) as Hp.
    assert (Hq : constant_array q).
    { apply (broadcast_constant (a := gn_gate g x) (b := p) rmul);
        try assumption; [exact dual_mul_constant | ].
      rewrite Ha. exact Hgate. }
    split; [apply jnp_mean_constant; exact Hq | ].
    split; [exact Hp | exact Hq].
Qed.
End FrozenModels.

Module ExactFacts.
Import Exact.

Lemma Q_mul_1_l (q : Q) : Qmult 1 q = q.
Proof.
  destruct q as [n d]. unfold Qmult. simpl.
  destruct n; reflexivity.
Qed.

Lemma Q_mul_1_r (q : Q) : Qmult q 1 = q.
Proof.
  destruct q as [n d]. unfold Qmult. simpl.
  rewrite Z.mul_1_r, Pos.mul_1_r. reflexivity.
Qed.

(** The default gate returns a bare scalar, so on a network built by
    [GatedNet(2, key=5)] the returned gates do not have the shape of
    the returned pre-activations. *)
Lemma GatedNet_default_gate_is_not_preacts_shaped :
  exists self preacts,
    GatedNet_init 2 None default_gate 5 redraw kwargs = Some self /\
    GatedNet_forward_pass self (Vector [1%Q; 1%Q]) 0
      = Some ((70 # 2)%Q, preacts, Scalar 1%Q, preacts) /\
    preacts = Vector [33%Q; 37%Q] /\
    shape (Scalar 1%Q : Array Q) <> shape preacts.
Proof.
  eexists. eexists. split; [vm_compute; reflexivity | ].
  split; [vm_compute; reflexivity | ].
  split; [reflexivity | ]. simpl. discriminate.
Qed.

Lemma GatedNet_unit_gate_is_SCM_witness :
  gn_fc1 gated_32 = scm_fc1 scm_32 /\
  GatedNet_call gated_32 ones3 0 = Some (21 # 2)%Q /\
  GatedNet_call gated_32 ones3 0 = SCM_call scm_32 ones3 1.
Proof.
  split; [reflexivity | ]. split; [vm_compute; reflexivity | ].
  apply (GatedNet_unit_gate_is_SCM (HN := Q_HostNum) gated_32 scm_32 ones3
           0 1 Q_mul_1_l);
    reflexivity.
Defined.

Lemma Linear_init_bias_witness :
  exists l,
    Linear_init 3 2 true true (5 # 2)%Q false 7 redraw tt = Some l /\
    out_features l = 2 /\
    bias l = Some (StopGradient [(5 # 2)%Q; (5 # 2)%Q]).
Proof.
  pose proof (@Linear_init_bias Q Q_HostNum Z Z_HostInit unit 3 2 true
                (5 # 2)%Q false 7 redraw tt Q_mul_1_r) as [Hex Hbias].
  destruct (Hex eq_refl) as [l E].
  exists l. split; [exact E | ]. exact (Hbias l E).
Defined.

(** [MLP(3, key=5)] has three hidden units and one output, not three. *)
Lemma MLP_default_out_features_is_1 :
  exists m,
    MLP_init 3 MLP_default_hidden_features MLP_default_out_features
             default_act 5 redraw kwargs = Some m /\
    num_hiddens m = 3 /\
    out_features (mlp_fc2 m) = 1 /\
    out_features (mlp_fc2 m) <> 3.
Proof.
  eexists. split; [vm_compute; reflexivity | ].
  cbn. repeat split. discriminate.
Qed.

Lemma MLP_init_defaults_witness :
  exists m,
    MLP_init 3 MLP_default_hidden_features MLP_default_out_features
             default_act 5 redraw kwargs = Some m /\
    in_features (mlp_fc1 m) = 3 /\
    out_features (mlp_fc1 m) = 3 /\
    num_hiddens m = 3 /\
    in_features (mlp_fc2 m) = 3 /\
    out_features (mlp_fc2 m) = 1.
Proof.
  pose proof (@MLP_init_defaults Q Q_HostNum Z Z_HostInit unit 3
                default_act 5 redraw kwargs) as [Hdef [_ Hex]].
  destruct (Hex eq_refl eq_refl) as [m E].
  exists m. split; [exact E | ]. exact (Hdef m E).
Defined.

Lemma redraw_shape (w : Matrix Q) (k : Z) (kw : unit) :
  map (@length Q) (redraw w k kw) = map (@length Q) w.
Proof.
  unfold redraw. rewrite map_map. apply map_ext.
  intros row. apply length_map.
Qed.

Lemma Linear_apply_shape_witness :
  exists l y,
    Linear_init 3 2 true false (1 # 2)%Q false 7 redraw tt = Some l /\
    Linear_apply l ones3 = Some (Vector y) /\
    length y = 2%nat.
Proof.
  destruct (Linear_init 3 2 true false (1 # 2)%Q false 7 redraw tt)
    as [l|] eqn:E; [ | vm_compute in E; discriminate].
  destruct (@Linear_apply_shape Q Q_HostNum Z Z_HostInit unit 3 2 true false
              (1 # 2)%Q false 7 redraw tt l [1%Q; 1%Q; 1%Q]
              redraw_shape E eq_refl) as [y [Hy Hlen]].
  exists l, y. split; [reflexivity | ]. split; [exact Hy | exact Hlen].
Defined.

Lemma functional_host_is_deterministic
    (init_fn : Initializer Q Z unit) :
  (forall k halves halves',
      may_split (functional_host init_fn) k halves ->
      may_split (functional_host init_fn) k halves' -> halves = halves') /\
  (forall k a b w w',
      may_draw_weight (functional_host init_fn) k a b w ->
      may_draw_weight (functional_host init_fn) k a b w' -> w = w') /\
  (forall k a b v v',
      may_draw_bias (functional_host init_fn) k a b v ->
      may_draw_bias (functional_host init_fn) k a b v' ->
      length v = length v') /\
  (forall w k kwargs w1 w2,
      may_initialize (functional_host init_fn) w k kwargs w1 ->
      may_initialize (functional_host init_fn) w k kwargs w2 -> w1 = w2).
Proof.
  cbn. repeat split; intros; congruence.
Qed.

Lemma Linear_init_deterministic_witness :
  exists l1 l2,
    Linear_makes (functional_host redraw) 3 2 true false 0%Q false 7 tt l1 /\
    Linear_makes (functional_host redraw) 3 2 true false 0%Q false 7 tt l2 /\
    weight l1 = weight l2 /\ bias l1 = bias l2.
Proof.
  destruct (Linear_init 3 2 true false 0%Q false 7 redraw tt)
    as [l|] eqn:E; [ | vm_compute in E; discriminate].
  apply Linear_makes_functional in E.
  destruct (functional_host_is_deterministic redraw)
    as [Hs [Hw [Hb Hi]]].
  exists l, l. split; [exact E | ]. split; [exact E | ].
  destruct (@Linear_init_deterministic Q Q_HostNum Z unit
              (functional_host redraw) 3 2 true false 0%Q false 7 tt
              l l Hs Hw Hb Hi E E) as [Ew [Eb _]].
  split; [exact Ew | exact Eb].
Defined.

(** Where the initializer does not go by the key alone, two
    constructions from the same arguments and key may differ. *)
Example coin_host_builds_two_layers :
  exists l1 l2,
    Linear_makes coin_host 1 1 false true 0%Q false 7 tt l1 /\
    Linear_makes coin_host 1 1 false true 0%Q false 7 tt l2 /\
    weight l1 <> weight l2.
Proof.
  exists (mkLinear 1 1 false (Raw [[22%Q]]) None),
         (mkLinear 1 1 false (Raw [[15%Q]]) None).
  split; [ | split; [ | discriminate]].
  - exists (mkLinear 1 1 false (Raw [[15%Q]]) None), [[22%Q]].
    split; [ | split; [left; reflexivity | reflexivity]].
    split; [reflexivity | ]. exists 15, 16, [[15%Q]], None.
    repeat split.
  - exists (mkLinear 1 1 false (Raw [[15%Q]]) None), [[15%Q]].
    split; [ | split; [right; reflexivity | reflexivity]].
    split; [reflexivity | ]. exists 15, 16, [[15%Q]], None.
    repeat split.
Qed.

Lemma frozen_parameter_contract_witness :
  Linear_apply (dual_fc1 (StopGradient W_seeded)) dual_ones3
    = Linear_apply (dual_fc1 (StopGradient W_constant)) dual_ones3 /\
  Linear_apply (dual_fc1 (StopGradient W_seeded)) dual_ones3
    = Some (Vector [constant 6%Q; constant 15%Q]).
Proof.
  split; [ | vm_compute; reflexivity].
  apply (proj1 (proj2 (proj2 (@frozen_parameter_contract Q Q_HostNum
                                Z Z_HostInit unit (fun r => eq_refl))))
           (dual_fc1 (Raw [])) W_seeded W_constant dual_ones3).
  reflexivity.
Defined.

(** Left trainable, the same seeded weight does reach the output: each
    output gets the sum of the inputs as its derivative. *)
Example raw_weight_is_differentiated :
  Linear_apply (dual_fc1 (Raw W_seeded)) dual_ones3
    = Some (Vector [mkDual 6%Q (Some 3%Q); mkDual 15%Q (Some 3%Q)]).
Proof.
  vm_compute. reflexivity.
Qed.

Lemma Z_HostInit_refuses_nonpositive (a b : Z) :
  accepts_features (HostInit := Z_HostInit) a b = true -> 0 < a /\ 0 < b.
Proof.
  cbn. intros E. apply andb_prop in E. destruct E as [Ea Eb].
  split; apply Z.ltb_lt; assumption.
Qed.

Lemma zero_features_are_None_witness :
  exists m,
    MLP_init 3 (Some 0) (Some 0) default_act 5 redraw kwargs = Some m /\
    MLP_init 3 None None default_act 5 redraw kwargs = Some m /\
    out_features (mlp_fc1 m) = 3 /\
    in_features (mlp_fc1 m) <> 0 /\ out_features (mlp_fc1 m) <> 0 /\
    in_features (mlp_fc2 m) <> 0 /\ out_features (mlp_fc2 m) <> 0.
Proof.
  destruct (MLP_init 3 (Some 0) (Some 0) default_act 5 redraw kwargs)
    as [m|] eqn:E; [ | vm_compute in E; discriminate].
  destruct (@zero_features_are_None Q Q_HostNum Z Z_HostInit unit 3
              (Some 0) (Some 0) default_act default_gate 5 redraw kwargs
              Z_HostInit_refuses_nonpositive)
    as [[E1 [E2 _]] [Hrep [_ [_ [_ [Hmlp _]]]]]].
  exists m. split; [reflexivity | ].
  split; [rewrite <- E; symmetry; exact (eq_trans E1 E2) | ].
  split; [exact (proj1 (Hrep m E)) | exact (Hmlp m E)].
Defined.
Lemma Linear_apply_rejects_witness :
  exists l,
    Linear_init 3 2 true false (1 # 2)%Q false 7 redraw tt = Some l /\
    Linear_apply l (Vector [1%Q; 1%Q]) = None /\
    Linear_apply l (Scalar 1%Q) = None.
Proof.
  destruct (Linear_init 3 2 true false (1 # 2)%Q false 7 redraw tt)
    as [l|] eqn:E; [ | vm_compute in E; discriminate].
  destruct (@Linear_apply_rejects Q Q_HostNum Z Z_HostInit unit 3 2 true
              false (1 # 2)%Q false 7 redraw tt l redraw_shape E eq_refl)
    as [Hvec Hsc].
  exists l. split; [reflexivity | ]. split.
  - apply Hvec. simpl. discriminate.
  - apply Hsc.
Defined.

Lemma Linear_init_without_bias_witness :
  exists l,
    Linear_init 3 2 false true (1 # 2)%Q false 7 redraw tt = Some l /\
    bias l = None /\
    Linear_init 3 2 false true 9%Q true 7 redraw tt = Some l.
Proof.
  destruct (Linear_init 3 2 false true (1 # 2)%Q false 7 redraw tt)
    as [l|] eqn:E; [ | vm_compute in E; discriminate].
  destruct (@Linear_init_without_bias Q Q_HostNum Z Z_HostInit unit 3 2
              true (1 # 2)%Q 9%Q false true 7 redraw tt l E)
    as [Hb [_ [Hl _]]].
  exists l. split; [reflexivity | ]. split; [exact Hb | exact Hl].
Defined.

Lemma default_act_keeps_length (n : nat) :
  keeps_length (default_act : Array Q -> Array Q) n.
Proof.
  intros u Hu. exists u. split; [reflexivity | exact Hu].
Qed.

Lemma MLP_forward_pass_shape_witness :
  exists m y preact,
    MLP_init 3 (Some 2) None default_act 5 redraw kwargs = Some m /\
    MLP_forward_pass m ones3 0 = Some (Vector y, Vector preact) /\
    length preact = 2%nat /\ length y = 3%nat.
Proof.
  destruct (MLP_init 3 (Some 2) None default_act 5 redraw kwargs)
    as [m|] eqn:E; [ | vm_compute in E; discriminate].
  destruct (@MLP_forward_pass_shape Q Q_HostNum Z Z_HostInit unit 3
              (Some 2) None default_act 5 redraw kwargs m
              [1%Q; 1%Q; 1%Q] 0 redraw_shape
              (@default_act_keeps_length 2%nat) E eq_refl)
    as [y [p [Hf [_ [Hp Hy]]]]].
  exists m, y, p. split; [reflexivity | ].
  split; [exact Hf | ]. split; [exact Hp | exact Hy].
Defined.

Lemma SCM_forward_pass_shape_witness :
  exists s preact,
    SCM_init 3 (Some 2) default_act 5 redraw kwargs = Some s /\
    SCM_call s ones3 0 = Some (jnp_mean (Vector preact)) /\
    length preact = 2%nat.
Proof.
  destruct (SCM_init 3 (Some 2) default_act 5 redraw kwargs)
    as [s|] eqn:E; [ | vm_compute in E; discriminate].
  destruct (@SCM_forward_pass_shape Q Q_HostNum Z Z_HostInit unit 3
              (Some 2) default_act 5 redraw kwargs s
              [1%Q; 1%Q; 1%Q] 0 redraw_shape E eq_refl)
    as [p [_ [Hc Hp]]].
  exists s, p. split; [reflexivity | ]. split; [exact Hc | exact Hp].
Defined.

Lemma GatedNet_forward_pass_shape_witness :
  exists g (preacts postacts : list Q),
    GatedNet_init 3 (Some 2) default_gate 5 redraw kwargs = Some g /\
    GatedNet_call g ones3 0 = Some (jnp_mean (Vector postacts)) /\
    length preacts = 2%nat /\ length postacts = length preacts.
Proof.
  destruct (GatedNet_init 3 (Some 2) default_gate 5 redraw kwargs)
    as [g|] eqn:E; [ | vm_compute in E; discriminate].
  destruct (@GatedNet_forward_pass_shape Q Q_HostNum Z Z_HostInit unit 3
              (Some 2) default_gate 5 redraw kwargs g
              [1%Q; 1%Q; 1%Q] 0 redraw_shape E eq_refl
              (or_introl (ex_intro _ 1%Q eq_refl)))
    as [p [q [_ [Hc [Hp Hq]]]]].
  exists g, p, q. split; [reflexivity | ].
  split; [exact Hc | ]. split; [exact Hp | exact Hq].
Defined.

Lemma GatedNet_init_is_SCM_init_witness :
  (g <- GatedNet_init 3 (Some 2) default_gate 5 redraw kwargs ;;
   GatedNet_call g ones3 0)
  = (s <- SCM_init 3 (Some 2) default_act 5 redraw kwargs ;;
     SCM_call s ones3 1).
Proof.
  exact (proj2 (@GatedNet_init_is_SCM_init Q Q_HostNum Z Z_HostInit unit 3
                  (Some 2) default_act default_gate 5 redraw kwargs
                  Q_mul_1_l) ones3 0 1).
Defined.

Lemma frozen_models_are_constant_witness :
  exists s y preact,
    SCM_init 3 (Some 2) default_act 5 redraw_dual frozen_kwargs = Some s /\
    SCM_forward_pass s dual_ones3 0 = Some (y, preact) /\
    is_constant y /\ constant_array preact.
Proof.
  destruct (SCM_init 3 (Some 2) default_act 5 redraw_dual frozen_kwargs)
    as [s|] eqn:E; [ | vm_compute in E; discriminate].
  destruct (SCM_forward_pass s dual_ones3 0) as [[y p]|] eqn:F.
  - exists s, y, p. split; [reflexivity | ]. split; [exact F | ].
    refine (proj1 (proj2
      (@frozen_models_are_constant Q Q_HostNum Z Z_HostInit_dual unit 3
         (Some 2) None default_act default_gate 5 0 redraw_dual
         frozen_kwargs dual_ones3 eq_refl eq_refl (fun a H => H) _ _))
      s y p E F).
    + repeat constructor.
    + repeat constructor.
  - exfalso. revert F.
    injection (eq_sym E) as ->. vm_compute. discriminate.
Defined.

(** With the default keyword arguments the weight stays trainable and
    the tangents the host seeds on it reach the output of the same
    network. *)
Example trainable_SCM_is_differentiated :
  (s <- SCM_init 3 (Some 2) default_act 5 redraw_dual
          (mkLinearKwargs true true (constant 0%Q) false tt) ;;
   r <- SCM_forward_pass s dual_ones3 0 ;;
   Some (tangent (fst r)))
  = Some (Some (12 # 2)%Q).
Proof.
  vm_compute. reflexivity.
Qed.
Lemma Linear_init_weight_witness :
  exists l l',
    Linear_init 3 2 true false (1 # 2)%Q false 7 redraw tt = Some l /\
    Linear_init 3 2 false false 9%Q true 7 redraw tt = Some l' /\
    weight l' = weight l /\
    is_frozen (weight l) = true.
Proof.
  destruct (Linear_init 3 2 true false (1 # 2)%Q false 7 redraw tt)
    as [l|] eqn:E; [ | vm_compute in E; discriminate].
  destruct (@Linear_init_weight Q Q_HostNum Z Z_HostInit unit 3 2 true
              false (1 # 2)%Q false 7 redraw tt l E)
    as [_ [Hf Hw]].
  destruct (Hw false 9%Q true) as [l' [El' Hl']].
  exists l, l'. split; [reflexivity | ].
  split; [exact El' | ]. split; [exact Hl' | exact Hf].
Defined.
End ExactFacts.
